(** * A shallow embedding of the RAG pipeline (ingest.py, rag_service.py)
      and of the bot on top of it (bot.py)

    The development follows the source modules:
    - [Py]         the fragment of Python the modules rely on: exceptions,
                   [str.strip], [str.join], [textwrap.dedent], substring test;
    - [Chroma]     the vector index behind [chromadb.PersistentClient];
    - [Ingest]     [load_documents], [build_chunks], [ensure_collection],
                   [upsert_chunks], [main] of ingest.py;
    - [RagService] [retrieve], [_build_prompt], [generate_answer] of
                   rag_service.py;
    - [RagInit]    [_get_or_create_collection] of rag_service.py, and
      [IngestClient] [ensure_collection] of ingest.py, over a client
                   that may fail at any call;
    - [Bot]        the user state, [export_history_txt], [handle_question],
                   [reset_handler] and [feedback_callback] of bot.py.

    A Python [str] is a Rocq [string] holding its UTF-8 bytes. *)

From Stdlib Require Import ZArith Ascii String List Lia Bool.
From stdpp Require Import gmap strings list fin_maps pretty.

(* ===================================================================== *)
(** ** Python: exceptions and results *)
(* ===================================================================== *)

Module Py.

(** The exception classes the two modules raise, catch or let through.
    [OtherError] stands for every class that is neither a [RuntimeError]
    nor ollama's [ResponseError] (OSError, pypdf errors, chromadb errors,
    ...); all of them derive from [Exception]. *)
Inductive exn : Type :=
| RuntimeError (msg : string)
| NameError (msg : string)
| IndexError (msg : string)
| ValueError (msg : string)
| ResponseError (text : string) (status_code : Z)
| OtherError (cls msg : string).

(** [str(exc)] *)
Definition str_exn (e : exn) : string :=
  match e with
  | RuntimeError m | NameError m | IndexError m | ValueError m => m
  | ResponseError t _ => t
  | OtherError _ m => m
  end.

(** [isinstance(exc, RuntimeError)] *)
Definition is_RuntimeError (e : exn) : bool :=
  match e with RuntimeError _ => true | _ => false end.

Inductive result (A : Type) : Type :=
| Ok (a : A)
| Raise (e : exn).
Arguments Ok {A} a.
Arguments Raise {A} e.

Definition rbind {A B} (r : result A) (k : A → result B) : result B :=
  match r with Ok a => k a | Raise e => Raise e end.

(** Code that works on a state [S] and may raise: the state reached and
    the value returned or the exception. *)
Definition M (S A : Type) : Type := S → S * result A.

Definition ret {S A} (a : A) : M S A := λ st, (st, Ok a).

Definition raise {S A} (e : exn) : M S A := λ st, (st, Raise e).

Definition bind {S A B} (m : M S A) (k : A → M S B) : M S B :=
  λ st, match m st with
        | (st', Ok a) => k a st'
        | (st', Raise e) => (st', Raise e)
        end.

(** [try: m / except Exception as e: h e] *)
Definition try_except {S A} (m : M S A) (h : exn → M S A) : M S A :=
  λ st, match m st with
        | (st', Ok a) => (st', Ok a)
        | (st', Raise e) => h e st'
        end.

Definition lift {S A} (r : result A) : M S A := λ st, (st, r).

(** [m] leaves the part [f] of the state as it found it, whatever it
    returns or raises. *)
Definition keeps {S X A} (f : S → X) (m : M S A) : Prop :=
  ∀ st st' r, m st = (st', r) → f st' = f st.

(** Values stored in a metadata dict. *)
Inductive pyval : Type :=
| PStr (s : string)
| PInt (n : Z).

(** [str(v)], as an f-string formats a value. *)
Definition str_val (v : pyval) : string :=
  match v with PStr s => s | PInt n => pretty n end.

(* --------------------------------------------------------------------- *)
(** *** Characters *)

Definition LF : ascii := ascii_of_nat 10.
Definition SP : ascii := ascii_of_nat 32.
Definition TAB : ascii := ascii_of_nat 9.
Definition nl : string := String LF "".

(** The class [[ \t]] of textwrap's regular expressions. *)
Definition isblank (c : ascii) : bool := Ascii.eqb c SP || Ascii.eqb c TAB.

(** Unicode white space, as [str.strip()] sees it, on UTF-8 bytes:
    U+0009..U+000D, U+001C..U+001F, U+0020 in one byte;
    U+0085, U+00A0 in two; U+1680, U+2000..U+200A, U+2028, U+2029, U+202F,
    U+205F, U+3000 in three. *)
Definition space1 (a : ascii) : bool :=
  let n := nat_of_ascii a in
  ((9 <=? n) && (n <=? 13)) || ((28 <=? n) && (n <=? 32)).

Definition space2 (a b : ascii) : bool :=
  (nat_of_ascii a =? 194) && ((nat_of_ascii b =? 133) || (nat_of_ascii b =? 160)).

Definition space3 (a b c : ascii) : bool :=
  let x := nat_of_ascii a in
  let y := nat_of_ascii b in
  let z := nat_of_ascii c in
  ((x =? 225) && (y =? 154) && (z =? 128))
  || ((x =? 226) && (y =? 128)
      && (((128 <=? z) && (z <=? 138)) || (z =? 168) || (z =? 169) || (z =? 175)))
  || ((x =? 226) && (y =? 129) && (z =? 159))
  || ((x =? 227) && (y =? 128) && (z =? 128)).

(* --------------------------------------------------------------------- *)
(** *** Strings *)

Fixpoint rev_string (acc s : string) : string :=
  match s with
  | EmptyString => acc
  | String c s' => rev_string (String c acc) s'
  end.

(** Drops the white space at the front of [s]; [sp2] and [sp3] read the
    bytes of a character in the order they come in [s]. *)
Fixpoint drop_space (sp2 : ascii → ascii → bool) (sp3 : ascii → ascii → ascii → bool)
    (s : string) : string :=
  match s with
  | String a s1 =>
      if space1 a then drop_space sp2 sp3 s1 else
      match s1 with
      | String b s2 =>
          if sp2 a b then drop_space sp2 sp3 s2 else
          match s2 with
          | String c s3 => if sp3 a b c then drop_space sp2 sp3 s3 else s
          | EmptyString => s
          end
      | EmptyString => s
      end
  | EmptyString => s
  end.

Definition lstrip (s : string) : string := drop_space space2 space3 s.

Definition rstrip (s : string) : string :=
  rev_string "" (drop_space (λ b a, space2 a b) (λ c b a, space3 a b c)
                            (rev_string "" s)).

(** [s.strip()] *)
Definition strip (s : string) : string := rstrip (lstrip s).

(** [sep.join(parts)] *)
Fixpoint join (sep : string) (parts : list string) : string :=
  match parts with
  | [] => ""
  | [p] => p
  | p :: ps => p +:+ sep +:+ join sep ps
  end.

(** [s.split("\n")]: the lines of [s], never an empty list. *)
Fixpoint lines (s : string) : list string :=
  match s with
  | EmptyString => [""]
  | String c s' =>
      if Ascii.eqb c LF then "" :: lines s'
      else match lines s' with
           | l :: ls => String c l :: ls
           | [] => [String c ""]
           end
  end.

Definition unlines (ls : list string) : string := join nl ls.

(** A line that is empty or starts with something else than a blank. *)
Definition col0 (l : string) : bool :=
  match l with
  | EmptyString => true
  | String c _ => negb (isblank c)
  end.

Definition nonempty (l : string) : bool :=
  match l with EmptyString => false | String _ _ => true end.

(** No line of [s] after the first starts with a space or a tab. *)
Definition flush_left (s : string) : bool := forallb col0 (tail (lines s)).

(** [s] goes on after its first line: a later line is not empty. *)
Definition continues (s : string) : bool := existsb nonempty (tail (lines s)).

(** [l] without its prefix [p], when [l] starts with [p]. *)
Fixpoint drop_prefix (p l : string) : option string :=
  match p, l with
  | EmptyString, _ => Some l
  | String x p', String y l' => if Ascii.eqb x y then drop_prefix p' l' else None
  | String _ _, EmptyString => None
  end.

(** [s.startswith(p)] *)
Definition startswith (s p : string) : bool :=
  match drop_prefix p s with Some _ => true | None => false end.

(** [needle in hay] *)
Fixpoint contains (needle hay : string) : bool :=
  startswith hay needle ||
  match hay with
  | EmptyString => false
  | String _ hay' => contains needle hay'
  end.

(** [a] occurs in [s] and [b] occurs after that occurrence. *)
Definition followed_by (a b s : string) : Prop :=
  ∃ pre mid post, s = pre +:+ a +:+ mid +:+ b +:+ post.

(** The same, decided: some occurrence of [a] has [b] in what follows it. *)
Fixpoint occurs_then (a b s : string) : bool :=
  match drop_prefix a s with
  | Some rest => contains b rest
  | None => false
  end ||
  match s with
  | EmptyString => false
  | String _ s' => occurs_then a b s'
  end.

(** [s.lower()] on the ASCII letters; the suffixes it is compared with
    below are ASCII, and no other letter lowers to an ASCII one of them. *)
Definition lower_ascii (c : ascii) : ascii :=
  let n := nat_of_ascii c in
  if (65 <=? n) && (n <=? 90) then ascii_of_nat (n + 32) else c.

Fixpoint lower (s : string) : string :=
  match s with
  | EmptyString => ""
  | String c s' => String (lower_ascii c) (lower s')
  end.

(* --------------------------------------------------------------------- *)
(** *** textwrap.dedent *)

Fixpoint all_blank (s : string) : bool :=
  match s with
  | EmptyString => true
  | String c s' => isblank c && all_blank s'
  end.

(** [_whitespace_only_re.sub('', text)]: a line made of blanks only
    becomes the empty line. *)
Definition blank_line (l : string) : string := if all_blank l then "" else l.

(** The longest prefix of blanks of a line. *)
Fixpoint leading_blank (l : string) : string :=
  match l with
  | String c l' => if isblank c then String c (leading_blank l') else ""
  | EmptyString => ""
  end.

(** [_leading_whitespace_re]: the leading blanks of a line that holds
    something else than blanks; such a line alone yields a match. *)
Definition indent_of (l : string) : option string :=
  if all_blank l then None else Some (leading_blank l).

Definition indents (ls : list string) : list string := omap indent_of ls.

(** [margin[:i]] at the first [i] where [margin] and [indent] differ. *)
Fixpoint cut_at_mismatch (margin indent : string) : option string :=
  match margin, indent with
  | String x m, String y i =>
      if Ascii.eqb x y then String x <$> cut_at_mismatch m i else Some ""
  | _, _ => None
  end.

(** One turn of the loop [for indent in indents]. *)
Definition margin_step (margin : option string) (indent : string) : option string :=
  match margin with
  | None => Some indent
  | Some m =>
      if startswith indent m then Some m
      else if startswith m indent then Some indent
      else Some (default m (cut_at_mismatch m indent))
  end.

Definition margin_of (ins : list string) : option string :=
  fold_left margin_step ins None.

(** [re.sub(r'(?m)^' + margin, '', text)] on one line. *)
Definition remove_margin (m l : string) : string := default l (drop_prefix m l).

Definition dedent (text : string) : string :=
  let ls := blank_line <$> lines text in
  match margin_of (indents ls) with
  | Some (String c m) => unlines (remove_margin (String c m) <$> ls)
  | _ => unlines ls
  end.

End Py.

Notation "x <- m ;; k" := (Py.bind m (λ x, k))
  (at level 100, m at next level, right associativity, only parsing).
Notation "m ;;; k" := (Py.bind m (λ _, k))
  (at level 100, right associativity, only parsing).

Import Py.

(* ===================================================================== *)
(** ** The vector index *)
(* ===================================================================== *)

Module Chroma.

(** Modelled from the spec: chromadb itself is not part of the repository;
    the persistent client is the Vector Index of the specification
    (section 6), a durable store keyed by a collection name, whose
    collections hold one entry per id: [upsert] adds an id or replaces
    what it held, deleting a collection that does not exist is an error,
    [get_or_create_collection] returns the collection of that name and
    creates an empty one first when there is none. *)
Record entry (V : Type) : Type := {
  document : string;
  metadata : gmap string pyval;
  embedding : V;
}.
Arguments document {V} e.
Arguments metadata {V} e.
Arguments embedding {V} e.

Record collection (V : Type) : Type := {
  settings : option (gmap string string);
  entries : gmap string (entry V);
}.
Arguments settings {V} c.
Arguments entries {V} c.

(** The persisted state of a client: its collections by name. *)
Abbreviation store V := (gmap string (collection V)).

(** Code that works on the store and may raise. *)
Abbreviation M V := (Py.M (store V)).

Section operations.
Context {V : Type}.

(** Modelled from the spec: [client.delete_collection(name)] of chromadb,
    the drop of the Vector Index; an error when there is no such
    collection. *)
Definition delete_collection (name : string) : M V unit :=
  λ st, match st !! name with
        | Some _ => (delete name st, Ok tt)
        | None => (st, Raise (ValueError ("Collection " +:+ name +:+ " does not exist.")))
        end.

(** Modelled from the spec: [client.get_or_create_collection] of chromadb,
    the creation of the Vector Index. The handle it returns is the name
    of the collection. *)
Definition get_or_create_collection (name : string)
    (md : option (gmap string string)) : M V string :=
  λ st, match st !! name with
        | Some _ => (st, Ok name)
        | None => (<[name := {| settings := md; entries := ∅ |}]> st, Ok name)
        end.

(** The records of one [upsert] call, [None] when the four lists
    differ in length. *)
Fixpoint records (ids documents : list string)
    (metadatas : list (gmap string pyval)) (embeddings : list V)
    : option (list (string * entry V)) :=
  match ids, documents, metadatas, embeddings with
  | [], [], [], [] => Some []
  | i :: ids', d :: documents', m :: metadatas', e :: embeddings' =>
      cons (i, {| document := d; metadata := m; embedding := e |})
        <$> records ids' documents' metadatas' embeddings'
  | _, _, _, _ => None
  end.

Definition put (es : gmap string (entry V)) (r : string * entry V)
    : gmap string (entry V) := <[r.1 := r.2]> es.

(** Modelled from the spec: [collection.upsert] of chromadb, the upsert
    of the Vector Index; an id of the batch replaces the entry of that id
    or adds one. *)
Definition upsert (name : string) (ids documents : list string)
    (metadatas : list (gmap string pyval)) (embeddings : list V) : M V unit :=
  λ st, match st !! name with
        | None => (st, Raise (ValueError ("Collection " +:+ name +:+ " does not exist.")))
        | Some c =>
            match records ids documents metadatas embeddings with
            | None => (st, Raise (ValueError "Unequal lengths for fields"))
            | Some rs =>
                (<[name := {| settings := settings c;
                              entries := fold_left put rs (entries c) |}]> st,
                 Ok tt)
            end
        end.

(** Modelled from the spec: the number of entries of a collection,
    [collection.count()] of chromadb; nothing when there is no such
    collection. *)
Definition count (name : string) (st : store V) : option nat :=
  (λ c, size (entries c)) <$> st !! name.

End operations.

End Chroma.


(* ===================================================================== *)
(** ** ingest.py *)
(* ===================================================================== *)

Module Ingest.

Import Chroma.

(** A file under [DATA_RAW_DIR], as the loader observes it. *)
Record file : Type := {
  rel : string;                 (* str(file_path.relative_to(BASE_DIR)) *)
  name : string;                (* file_path.name *)
  suffix : string;              (* file_path.suffix *)
  read_text : result string;    (* file_path.read_text(encoding="utf-8", errors="ignore") *)
  pdf_pages : result (list (result (option string)));
                                (* PdfReader(str(path)).pages, page.extract_text() of each *)
  docx2txt_process : result string;  (* docx2txt.process(str(path)) *)
}.

(** A loaded document: its text and its metadata dict. *)
Abbreviation doc := (string * gmap string pyval)%type.

Definition read_txt (f : file) : result string := read_text f.

Fixpoint page_texts (pages : list (result (option string))) : result (list string) :=
  match pages with
  | [] => Ok []
  | p :: ps =>
      rbind p (λ t, rbind (page_texts ps) (λ parts, Ok (default "" t :: parts)))
  end.

Definition read_pdf (f : file) : result string :=
  rbind (pdf_pages f) (λ pages, rbind (page_texts pages) (λ parts, Ok (join nl parts))).

Definition read_docx (f : file) : result string := docx2txt_process f.

(** The text of one file, by its lowered suffix. *)
Definition extract (f : file) : result string :=
  let sfx := lower (suffix f) in
  if String.eqb sfx ".txt" || String.eqb sfx ".md" then read_txt f
  else if String.eqb sfx ".pdf" then read_pdf f
  else if String.eqb sfx ".docx" then read_docx f
  else Ok "".

Definition meta_of (f : file) : gmap string pyval :=
  <["source" := PStr (rel f)]> (<["filename" := PStr (name f)]> ∅).

(** The inner loop of [load_documents]: the files of one pattern. *)
Fixpoint load_files (fs : list file) (docs : list doc) : result (list doc) :=
  match fs with
  | [] => Ok docs
  | f :: fs' =>
      rbind (extract f) (λ text,
        if String.eqb (strip text) "" then load_files fs' docs
        else load_files fs' (docs ++ [(text, meta_of f)]))
  end.

Definition patterns : list string := ["*.txt"; "*.md"; "*.pdf"; "*.docx"].

Section pipeline.
Context {V : Type}.
(** [DATA_RAW_DIR.rglob(ext)], in the order the walk yields the files. *)
Variable rglob : string → list file.
(** [RecursiveCharacterTextSplitter(chunk_size=CHUNK_SIZE,
    chunk_overlap=CHUNK_OVERLAP).split_text] of langchain. *)
Variable split_text : string → list string.
(** [SentenceTransformerEmbeddingFunction(model_name=EMBED_MODEL)] *)
Variable embed_fn : list string → list V.
(** [hashlib.md5(s.encode("utf-8")).hexdigest()] *)
Variable md5_hexdigest : string → string.
Variable COLLECTION_NAME : string.

(** The outer loop: one pattern after the other. *)
Fixpoint load_patterns (exts : list string) (docs : list doc) : result (list doc) :=
  match exts with
  | [] => Ok docs
  | ext :: exts' => rbind (load_files (rglob ext) docs) (load_patterns exts')
  end.

Definition load_documents : result (list doc) := load_patterns patterns [].

(** The chunks of one document with their metadata,
    [{**meta, "chunk": idx}]. *)
Definition chunks_of (d : doc) : list (string * gmap string pyval) :=
  imap (λ idx chunk, (chunk, <["chunk" := PInt (Z.of_nat idx)]> d.2)) (split_text d.1).

Definition build_chunks (docs : list doc) : list string * list (gmap string pyval) :=
  let cs := docs ≫= chunks_of in (cs.*1, cs.*2).

Definition ensure_collection (reset : bool) : M V string :=
  (if reset
   then try_except (delete_collection COLLECTION_NAME) (λ _, ret tt)
   else ret tt) ;;;
  try_except (get_or_create_collection COLLECTION_NAME None)
    (λ _, get_or_create_collection COLLECTION_NAME (Some {["hnsw:space" := "cosine"]})).

(** [raw_id] of the chunk at position [idx] of the batch. *)
Definition raw_id (idx : nat) (meta : gmap string pyval) : string :=
  str_val (default (PStr "unknown") (meta !! "source")) +:+ "::" +:+
  str_val (default (PInt (Z.of_nat idx)) (meta !! "chunk")) +:+ "::" +:+
  pretty idx.

Definition chunk_ids (metadatas : list (gmap string pyval)) : list string :=
  imap (λ idx meta, md5_hexdigest (raw_id idx meta)) metadatas.

Definition upsert_chunks (texts : list string)
    (metadatas : list (gmap string pyval)) (reset : bool) : M V unit :=
  collection <- ensure_collection reset ;;
  upsert collection (chunk_ids metadatas) texts metadatas (embed_fn texts).

(** [main], given the [--reset] flag; the result is what it prints. *)
Definition main (reset : bool) : M V string :=
  docs <- lift load_documents ;;
  match docs with
  | [] => ret "No documents found in data/raw. Add educational materials and retry."
  | _ :: _ =>
      let (texts, metas) := build_chunks docs in
      match texts with
      | [] => ret "No chunks produced."
      | _ :: _ =>
          upsert_chunks texts metas reset ;;;
          ret ("Ingested " +:+ pretty (length texts) +:+
               " educational chunks into collection '" +:+ COLLECTION_NAME +:+ "'.")
      end
  end.

(** The collection [upsert_chunks] writes into: a fresh one after a
    reset, else the one of that name, fresh when there was none. *)
Definition target (reset : bool) (st : store V) : collection V :=
  if reset then {| settings := None; entries := ∅ |}
  else default {| settings := None; entries := ∅ |} (st !! COLLECTION_NAME).

(** The files a scan visits, in the order it visits them. *)
Definition scanned : list file := patterns ≫= rglob.

(** The ids one run assigns to its chunks, in batch order. *)
Definition run_ids : result (list string) :=
  rbind load_documents (λ docs, Ok (chunk_ids (build_chunks docs).2)).

(** Where each chunk of a batch comes from: the source of its document
    and its index in that document. *)
Definition provenance (docs : list doc) : list (string * nat) :=
  docs ≫= (λ d, imap (λ idx _, (str_val (default (PStr "unknown") (d.2 !! "source")), idx))
                     (split_text d.1)).

End pipeline.

(** The document [load_documents] keeps for a file whose text is [text]. *)
Definition doc_of (f : file) (text : string) : option doc :=
  if String.eqb (strip text) "" then None else Some (text, meta_of f).

(** How the metadata of a chunk relates to where the chunk comes from. *)
Definition from (m : gmap string pyval) (p : string * nat) : Prop :=
  str_val (default (PStr "unknown") (m !! "source")) = p.1
  ∧ m !! "chunk" = Some (PInt (Z.of_nat p.2)).

(** What [load_documents] keeps of a file. *)
Definition kept (f : file) : option doc :=
  match extract f with Ok text => doc_of f text | Raise _ => None end.

End Ingest.

(* ===================================================================== *)
(** ** rag_service.py *)
(* ===================================================================== *)

Module RagService.

(** The names bound in the module namespace of rag_service.py: what it
    imports and what it defines. *)
Definition rag_service_globals : list string :=
  ["logging"; "textwrap"; "List"; "Tuple"; "Optional"; "chromadb";
   "embedding_functions"; "ollama"; "ResponseError"; "CHROMA_DIR";
   "COLLECTION_NAME"; "EMBED_MODEL"; "OLLAMA_BASE_URL"; "OLLAMA_MODEL";
   "TOP_K"; "RagService"].

(** What a call leaves behind outside its result. *)
Record world : Type := {
  query_calls : nat;      (* calls of collection.query *)
  chat_calls : nat;       (* calls of ollama.chat *)
  sleeps : list Z;        (* the arguments of time.sleep, oldest first *)
  log : list string;      (* the messages given to logging, oldest first *)
}.

Definition world0 : world :=
  {| query_calls := 0; chat_calls := 0; sleeps := []; log := [] |}.

Definition count_query (w : world) : world :=
  {| query_calls := S (query_calls w); chat_calls := chat_calls w;
     sleeps := sleeps w; log := log w |}.

Definition count_chat (w : world) : world :=
  {| query_calls := query_calls w; chat_calls := S (chat_calls w);
     sleeps := sleeps w; log := log w |}.

Definition add_sleep (secs : Z) (w : world) : world :=
  {| query_calls := query_calls w; chat_calls := chat_calls w;
     sleeps := sleeps w ++ [secs]; log := log w |}.

Definition add_log (msg : string) (w : world) : world :=
  {| query_calls := query_calls w; chat_calls := chat_calls w;
     sleeps := sleeps w; log := log w ++ [msg] |}.

(** The part of the world that generation acts on. *)
Definition generation (w : world) : nat * list Z := (chat_calls w, sleeps w).

Abbreviation W := (Py.M world).

(** The dict [collection.query] returns. *)
Record query_result (D : Type) : Type := {
  documents : option (list (list string));
  metadatas : option (list (list (gmap string pyval)));
  distances : option (list (list D));
}.
Arguments documents {D} q.
Arguments metadatas {D} q.
Arguments distances {D} q.

(** [l[0]] *)
Definition first {A} (l : list A) : result A :=
  match l with
  | x :: _ => Ok x
  | [] => Raise (IndexError "list index out of range")
  end.

(** [list(zip(a, b, c))] *)
Fixpoint zip3 {A B C} (a : list A) (b : list B) (c : list C) : list (A * B * C) :=
  match a, b, c with
  | x :: a', y :: b', z :: c' => (x, y, z) :: zip3 a' b' c'
  | _, _, _ => []
  end.

(** [range(n)] *)
Definition range (n : nat) : list Z := Z.of_nat <$> seq 0 n.

Definition indent : string := "            ".

(** The template of the system message, before [dedent] and [strip]. *)
Definition system_template : string :=
  unlines
    [indent +:+ "Ты — опытный русскоязычный образовательный ассистент. Отвечай ТОЛЬКО на русском языке.";
     indent;
     indent +:+ "ПРАВИЛА:";
     indent +:+ "1. Используй ТОЛЬКО информацию из контекста";
     indent +:+ "2. Если информации нет — честно скажи об этом";
     indent +:+ "3. Не выдумывай факты";
     indent +:+ "4. Будь дружелюбным и полезным";
     indent +:+ "5. Отвечай кратко и по делу, используй списки и эмодзи для структуры, давай практичные советы, если применимо.";
     indent].

Definition question_label : string := "Запрос пользователя: ".
Definition context_label : string := "Контекст из базы знаний:".
Definition no_context : string := "Контекст не найден.".

(** The f-string of the user message with its two fields filled in,
    before [dedent] and [strip]. *)
Definition user_template (question context : string) : string :=
  unlines
    [indent +:+ question_label +:+ question;
     indent;
     indent +:+ context_label;
     indent +:+ (if String.eqb context "" then no_context else context);
     indent].

Definition corrupted_message : string :=
  "База данных повреждена. Удалите папку 'chroma_db' и запустите:" +:+ nl +:+
  "python ingest.py --reset".

Definition overloaded_message : string :=
  "Ollama сервис перегружен или недоступен (503)." +:+ nl +:+ nl +:+
  "Попробуйте:" +:+ nl +:+
  "• Подождать 10-30 секунд и повторить запрос" +:+ nl +:+
  "• Проверить, что Ollama запущен: `ollama list`" +:+ nl +:+
  "• Перезапустить Ollama сервис".

(** The indentation [dedent] leaves in front of the template lines of the
    user message: the whole of it when a line after the first, of the
    question or of the context block, is not empty, none otherwise. *)
Definition left_over (question block : string) : string :=
  if continues question || continues block then indent else "".

Section service.
Context {V D : Type}.
(** The names bound in the module namespace when the methods run. *)
Variable globals : list string.
(** [self.embed_fn] *)
Variable embed_fn : list string → list V.
(** [self.collection.query]: what its call number [n] (from 0) gives for
    an embedding and [n_results]. *)
Variable collection_query : nat → V → nat → result (query_result D).
(** [self.ollama.chat(model=self.model, messages=...)]: what its call
    number [n] gives for the two messages, the content of the reply or
    the exception. *)
Variable ollama_chat : nat → string → string → result string.
Variable TOP_K : nat.

Abbreviation passage := (string * gmap string pyval * D)%type.

(** Evaluating a global name. *)
Definition name (x : string) : W unit :=
  if bool_decide (x ∈ globals) then ret tt
  else raise (NameError ("name '" +:+ x +:+ "' is not defined")).

(** [logging.warning(msg)], [logging.error(msg)] *)
Definition logging_say (msg : string) : W unit :=
  name "logging" ;;; λ w, (add_log msg w, Ok tt).

(** [time.sleep(secs)] *)
Definition time_sleep (secs : Z) : W unit :=
  name "time" ;;; λ w, (add_sleep secs w, Ok tt).

Definition query (emb : V) (n_results : nat) : W (query_result D) :=
  λ w, (count_query w, collection_query (query_calls w) emb n_results).

Definition chat (system_msg user_msg : string) : W string :=
  λ w, (count_chat w, ollama_chat (chat_calls w) system_msg user_msg).

Definition retrieve (q : string) (top_k : nat) : W (list passage) :=
  query_embedding <- lift (first (embed_fn [q])) ;;
  results <- try_except (query query_embedding top_k)
    (λ e,
       if is_RuntimeError e then
         if contains "Cannot open header file" (str_exn e) then
           logging_say "ChromaDB index corrupted. Please delete chroma_db folder and run ingest.py --reset" ;;;
           raise (RuntimeError corrupted_message)
         else raise e
       else raise e) ;;
  docs <- lift (first (default [[]] (documents results))) ;;
  metas <- lift (first (default [[]] (metadatas results))) ;;
  dists <- lift (first (default [[]] (distances results))) ;;
  ret (zip3 docs metas dists).

(** One entry of [context_parts]. *)
Definition context_part (p : passage) : string :=
  "[" +:+ str_val (default (PStr "unknown") (p.1.2 !! "source")) +:+ "] " +:+ p.1.1.

Definition context_of (docs : list passage) : string :=
  join (nl +:+ nl) (context_part <$> docs).

(** The context block of the user message: the tagged passages, or the
    placeholder when there is none. *)
Definition context_block (docs : list passage) : string :=
  match docs with
  | [] => no_context
  | _ :: _ => context_of docs
  end.

Definition _build_prompt (question : string) (docs : list passage) : string * string :=
  let context := context_of docs in
  let system_msg := strip (dedent system_template) in
  let user_msg := strip (dedent (user_template question context)) in
  (system_msg, user_msg).

(** The loop [for attempt in range(3)] of [generate_answer]. *)
Fixpoint attempts (rng : list Z) (system_msg user_msg : string)
    (docs : list passage) (last_exc : option exn) : W (string * list passage) :=
  match rng with
  | [] => raise (default (RuntimeError "Unknown Ollama error") last_exc)
  | attempt :: rng' =>
      try_except
        (answer <- chat system_msg user_msg ;; ret (answer, docs))
        (λ exc,
           match exc with
           | ResponseError text status =>
               let message :=
                 if String.eqb (strip text) "" then "service unavailable"
                 else strip text in
               if (status =? 503)%Z then
                 if (attempt <? 2)%Z then
                   let wait_time := (2 + attempt * 3)%Z in
                   logging_say ("Ollama 503, retry " +:+ pretty (attempt + 1)%Z +:+
                                "/3 after " +:+ pretty wait_time +:+ "s") ;;;
                   time_sleep wait_time ;;;
                   attempts rng' system_msg user_msg docs last_exc
                 else raise (RuntimeError overloaded_message)
               else
                 raise (RuntimeError ("Ollama error (" +:+ pretty status +:+ "): "
                                      +:+ message))
           | _ => raise exc
           end)
  end.

Definition generate_answer (question : string) : W (string * list passage) :=
  docs <- retrieve question TOP_K ;;
  let (system_msg, user_msg) := _build_prompt question docs in
  attempts (range 3) system_msg user_msg docs None.

End service.

End RagService.

(* ===================================================================== *)
(** ** Notions for the properties of ingest.py *)
(* ===================================================================== *)

Module IngestAux.
Import Chroma Ingest.

(** The entry a collection of the store holds under an id. *)
Definition entry_at {V} (name : string) (st : gmap string (collection V)) (id : string)
    : option (entry V) :=
  st !! name ≫= λ c, entries c !! id.

Definition COLON : ascii := ascii_of_nat 58.

(** No colon in [s]. *)
Fixpoint no_colon (s : string) : bool :=
  match s with
  | EmptyString => true
  | String c s' => negb (Ascii.eqb c COLON) && no_colon s'
  end.

(** What follows the last colon of [s], all of [s] when it has none. *)
Fixpoint last_field (s : string) : string :=
  match s with
  | EmptyString => ""
  | String c s' =>
      if no_colon s' then (if Ascii.eqb c COLON then s' else s) else last_field s'
  end.

(** [s] is made of one-byte white space only. *)
Fixpoint all_space (s : string) : bool :=
  match s with
  | EmptyString => true
  | String c s' => space1 c && all_space s'
  end.

(** A page that gives no text or white space only. *)
Definition empty_page (p : result (option string)) : Prop :=
  p = Ok None ∨ ∃ t, p = Ok (Some t) ∧ all_space t = true.

End IngestAux.

(* ===================================================================== *)
(** ** rag_service.py: opening the collection *)
(* ===================================================================== *)

Module RagInit.

(** The calls [_get_or_create_collection] makes on the chromadb client,
    all for [COLLECTION_NAME]; [md] is the [metadata] argument. *)
Inductive client_call : Type :=
| GetOrCreate (md : option (gmap string string))
| Delete
| Create (md : option (gmap string string)).

(** What the method leaves behind: the client calls it made and the
    warnings it logged, oldest first. *)
Record init_world : Type := {
  client_calls : list client_call;
  warnings : list string;
}.

Definition cosine : gmap string string := {["hnsw:space" := "cosine"]}.

Section init.
(** The client: what its call number [n] (from 0) gives. *)
Variable client : nat → client_call → result unit.

Definition call (c : client_call) : M init_world unit :=
  λ w, ({| client_calls := client_calls w ++ [c]; warnings := warnings w |},
        client (length (client_calls w)) c).

(** [logging.warning(msg)] *)
Definition warning (msg : string) : M init_world unit :=
  λ w, ({| client_calls := client_calls w; warnings := warnings w ++ [msg] |}, Ok tt).

Definition _get_or_create_collection : M init_world unit :=
  try_except (call (GetOrCreate None))
    (λ e,
       warning ("Failed to get collection with default settings: " +:+ str_exn e) ;;;
       try_except (call (GetOrCreate (Some cosine)))
         (λ e2,
            warning ("Failed to get collection, trying to delete and recreate: "
                     +:+ str_exn e2) ;;;
            try_except (call Delete) (λ _, ret tt) ;;;
            try_except (call (Create None)) (λ _, call (Create (Some cosine))))).

End init.
End RagInit.

(* ===================================================================== *)
(** ** ingest.py: ensure_collection over a client that may fail *)
(* ===================================================================== *)

Module IngestClient.
Import RagInit.

Section client.
(** The client: what its call number [n] (from 0) gives. *)
Variable client : nat → client_call → result unit.

(** [ensure_collection], the calls it makes on the client it is given
    and what comes of them. *)
Definition ensure_collection (reset : bool) : M init_world unit :=
  (if reset
   then try_except (call client Delete) (λ _, ret tt)
   else ret tt) ;;;
  try_except (call client (GetOrCreate None))
    (λ _, call client (GetOrCreate (Some cosine))).

End client.
End IngestClient.

(* ===================================================================== *)
(** ** bot.py *)
(* ===================================================================== *)

Module Bot.

(** An entry of [state["favorites"]], the dict with keys [text] and
    [date]. *)
Record favorite : Type := { fav_text : string; fav_date : string }.

(** The state dict of one user; its five keys are there from
    [get_user_state] on and are never removed. *)
Record state : Type := {
  history : list (string * string);
  favorites : list favorite;
  last_answer : option string;
  last_sources : list pyval;
  awaiting : option string;
}.

Definition new_state : state :=
  {| history := []; favorites := []; last_answer := None;
     last_sources := []; awaiting := None |}.

(** The module-level dict [user_state]. *)
Abbreviation users := (gmap Z state).

(** [get_user_state]: the store it leaves and the state it returns. *)
Definition get_user_state (user_id : Z) (us : users) : users * state :=
  match us !! user_id with
  | Some s => (us, s)
  | None => (<[user_id := new_state]> us, new_state)
  end.

(** A keyword argument of [set_user_state] for one of the five keys,
    [None] standing for Python's [None]. *)
Inductive kwarg : Type :=
| kw_history (v : option (list (string * string)))
| kw_favorites (v : option (list favorite))
| kw_last_answer (v : option string)
| kw_last_sources (v : option (list pyval))
| kw_awaiting (v : option string).

(** One turn of the loop of [set_user_state]. *)
Definition set_key (s : state) (kw : kwarg) : state :=
  match kw with
  | kw_history None | kw_favorites None | kw_last_sources None => s
  | kw_history (Some v) =>
      {| history := v; favorites := favorites s; last_answer := last_answer s;
         last_sources := last_sources s; awaiting := awaiting s |}
  | kw_favorites (Some v) =>
      {| history := history s; favorites := v; last_answer := last_answer s;
         last_sources := last_sources s; awaiting := awaiting s |}
  | kw_last_sources (Some v) =>
      {| history := history s; favorites := favorites s; last_answer := last_answer s;
         last_sources := v; awaiting := awaiting s |}
  | kw_last_answer v =>
      {| history := history s; favorites := favorites s; last_answer := v;
         last_sources := last_sources s; awaiting := awaiting s |}
  | kw_awaiting v =>
      {| history := history s; favorites := favorites s; last_answer := last_answer s;
         last_sources := last_sources s; awaiting := v |}
  end.

Definition set_user_state (user_id : Z) (kwargs : list kwarg) (us : users) : users :=
  let (us', s) := get_user_state user_id us in
  <[user_id := fold_left set_key kwargs s]> us'.

(** [l[-n:]] for a positive [n] *)
Definition last_n {A} (n : nat) (l : list A) : list A := drop (length l - n) l.

Definition add_to_history (user_id : Z) (question answer : string) (us : users) : users :=
  let (us', s) := get_user_state user_id us in
  let h := history s ++ [(question, answer)] in
  <[user_id :=
      {| history := if 10 <? length h then last_n 10 h else h;
         favorites := favorites s; last_answer := last_answer s;
         last_sources := last_sources s; awaiting := awaiting s |}]> us'.

(** [now] is what [datetime.now().isoformat()] gives. *)
Definition add_to_favorites (now : string) (user_id : Z) (answer : string)
    (us : users) : users :=
  let (us', s) := get_user_state user_id us in
  let f := favorites s ++ [{| fav_text := answer; fav_date := now |}] in
  <[user_id :=
      {| history := history s;
         favorites := if 20 <? length f then last_n 20 f else f;
         last_answer := last_answer s;
         last_sources := last_sources s; awaiting := awaiting s |}]> us'.

Definition history_header : string :=
  "=== Образовательный ассистент: история запросов ===" +:+ nl.

(** The three lines [export_history_txt] writes for the exchange number
    [i] (from 1). *)
Definition exchange_lines (i : nat) (qa : string * string) : list string :=
  ["--- Запрос " +:+ pretty i +:+ " ---";
   "Вопрос: " +:+ qa.1;
   "Ответ:" +:+ nl +:+ qa.2 +:+ nl].

(** [export_history_txt]; the bytes it returns are the UTF-8 encoding,
    which a string here is. *)
Definition export_history_txt (s : state) : string :=
  join nl (history_header :: concat (imap (λ i qa, exchange_lines (S i) qa) (history s))).

(** *** The handlers *)

(** The [parse_mode] argument of a send: left out, [None], or
    [ParseMode.MARKDOWN]. *)
Inductive parse_mode_arg : Type := Unset | NoParseMode | MarkdownMode.

(** The [reply_markup] argument. *)
Inductive keyboard : Type := NoKeyboard | MainKeyboard | FeedbackKeyboard.

(** What a handler gives to Telegram. *)
Inductive outgoing : Type :=
| Reply (text : string)                       (* message.reply(text) *)
| Answer (text : string) (parse_mode : parse_mode_arg) (reply_markup : keyboard)
                                              (* message.answer(text, ...) *)
| CallbackAnswer (text : string).             (* callback.answer(text) *)

(** What a handler reads of the incoming message. *)
Record message : Type := {
  text : option string;      (* message.text *)
  from_user : option Z;      (* message.from_user, its id *)
}.

(** What [feedback_callback] reads of the callback query. *)
Record callback_query : Type := {
  data : string;             (* callback.data *)
  callback_from_user : Z;    (* callback.from_user.id *)
}.

(** What one run of a handler acts on; [R] is the state behind the
    [RagService] object. No other handler runs between its awaits. *)
Record world (R : Type) : Type := {
  user_state : users;
  sent : list outgoing;         (* what was given to Telegram, oldest first *)
  logged : list string;         (* the messages of logging.exception *)
  rag : R;
}.
Arguments user_state {R} w.
Arguments sent {R} w.
Arguments logged {R} w.
Arguments rag {R} w.

#[global] Instance pyval_eq_dec : EqDecision pyval.
Proof. solve_decision. Defined.

(** [bool(v)] of a metadata value. *)
Definition truthy (v : pyval) : bool :=
  match v with
  | PStr s => negb (String.eqb s "")
  | PInt n => negb (n =? 0)%Z
  end.

(** The strings of [sep.join(vs)]: a TypeError at the first item that is
    no [str], [i] being the place of the head of [vs]. *)
Fixpoint str_items (i : nat) (vs : list pyval) : result (list string) :=
  match vs with
  | [] => Ok []
  | PStr s :: vs' => rbind (str_items (S i) vs') (λ ss, Ok (s :: ss))
  | PInt _ :: _ =>
      Raise (OtherError "TypeError"
               ("sequence item " +:+ pretty i +:+ ": expected str instance, int found"))
  end.

(** [message.from_user.id] *)
Definition from_user_id (msg : message) : result Z :=
  match from_user msg with
  | Some uid => Ok uid
  | None => Raise (OtherError "AttributeError" "'NoneType' object has no attribute 'id'")
  end.

(** [question or (message.text or "").strip()] *)
Definition asked (msg : message) (question : option string) : string :=
  match question with
  | Some q => if String.eqb q "" then strip (default "" (text msg)) else q
  | None => strip (default "" (text msg))
  end.

(** [user_id or message.from_user.id] *)
Definition user_of (msg : message) (user_id : option Z) : result Z :=
  match user_id with
  | Some u => if (u =? 0)%Z then from_user_id msg else Ok u
  | None => from_user_id msg
  end.

(** [d[1].get("source", "")] *)
Definition source_of {D} (d : string * gmap string pyval * D) : pyval :=
  default (PStr "") (d.1.2 !! "source").

(** [d[1].get("source")] taken as a condition *)
Definition has_source {D} (d : string * gmap string pyval * D) : bool :=
  match d.1.2 !! "source" with Some v => truthy v | None => false end.

Definition sources_label : string := nl +:+ nl +:+ "📚 Источники: ".

(** What follows what [data] has up to its first colon,
    [data.split(":", 1)[1]]. *)
Fixpoint after_colon (data : string) : result string :=
  match data with
  | EmptyString => Raise (IndexError "list index out of range")
  | String c rest => if Ascii.eqb c ":" then Ok rest else after_colon rest
  end.

Section handlers.
Context {R D : Type}.
(** Telegram: what the send number [n] (from 0) gives. *)
Variable telegram : nat → outgoing → result unit.
(** [rag.generate_answer] *)
Variable generate_answer : string → M R (string * list (string * gmap string pyval * D)).
(** [list(set(xs))]: the values of [xs] in the order the set yields
    them. *)
Variable set_list : list pyval → list pyval.
(** [datetime.now().isoformat()] *)
Variable now : string.

Abbreviation passage := (string * gmap string pyval * D)%type.

Definition send (o : outgoing) : M (world R) unit :=
  λ w, ({| user_state := user_state w; sent := sent w ++ [o];
           logged := logged w; rag := rag w |},
        telegram (length (sent w)) o).

Definition on_users (f : users → users) : M (world R) unit :=
  λ w, ({| user_state := f (user_state w); sent := sent w;
           logged := logged w; rag := rag w |}, Ok tt).

(** [get_user_state] run on the world. *)
Definition user_state_of (user_id : Z) : M (world R) state :=
  λ w, ({| user_state := (get_user_state user_id (user_state w)).1; sent := sent w;
           logged := logged w; rag := rag w |},
        Ok (get_user_state user_id (user_state w)).2).

Definition on_rag {A} (m : M R A) : M (world R) A :=
  λ w, ({| user_state := user_state w; sent := sent w;
           logged := logged w; rag := (m (rag w)).1 |}, (m (rag w)).2).

(** [logging.exception(msg)] *)
Definition logging_exception (msg : string) : M (world R) unit :=
  λ w, ({| user_state := user_state w; sent := sent w;
           logged := logged w ++ [msg]; rag := rag w |}, Ok tt).

(** [sources_text]: empty, or the label and up to three sources. *)
Definition sources_text (docs : list passage) : result string :=
  let sources := set_list (source_of <$> List.filter has_source docs) in
  match sources with
  | [] => Ok ""
  | _ :: _ =>
      rbind (str_items 0 (take 3 sources)) (λ ss, Ok (sources_label +:+ join ", " ss))
  end.

Definition thinking : outgoing := Answer "Думаю над ответом... ⏳" NoParseMode NoKeyboard.

(** The [message.answer] of the outer handler, [f"Ошибка: {exc}"]. *)
Definition error_message (exc : exn) : outgoing :=
  Answer ("Ошибка: " +:+ str_exn exc) NoParseMode NoKeyboard.

Definition handle_question (msg : message) (question : option string)
    (user_id : option Z) : M (world R) unit :=
  let question := asked msg question in
  if String.eqb question "" then send (Reply "Пришлите текстовый вопрос.")
  else
    uid <- lift (user_of msg user_id) ;;
    user_state_of uid ;;;
    send thinking ;;;
    try_except
      (r <- on_rag (generate_answer question) ;;
       let answer := r.1 in
       let docs := r.2 in
       on_users (set_user_state uid
                   [kw_last_answer (Some answer);
                    kw_last_sources (Some (source_of <$> docs))]) ;;;
       on_users (add_to_history uid question answer) ;;;
       sources_text <- lift (sources_text docs) ;;
       let full_answer := answer +:+ sources_text in
       try_except
         (send (Answer full_answer MarkdownMode FeedbackKeyboard))
         (λ _, send (Answer full_answer NoParseMode FeedbackKeyboard)))
      (λ exc,
         logging_exception "Failed to answer question" ;;;
         try_except
           (send (error_message exc))
           (λ _, ret tt)).

Definition reset_handler (msg : message) : M (world R) unit :=
  uid <- lift (from_user_id msg) ;;
  on_users (set_user_state uid [kw_awaiting None]) ;;;
  send (Answer "🔄 Параметры сброшены." Unset MainKeyboard).

Definition feedback_callback (callback : callback_query) : M (world R) unit :=
  action <- lift (after_colon (data callback)) ;;
  state <- user_state_of (callback_from_user callback) ;;
  if String.eqb action "good" then send (CallbackAnswer "Спасибо за отзыв! 👍")
  else if String.eqb action "bad" then
    send (CallbackAnswer "Жаль, что не помогло. Попробуйте уточнить запрос.")
  else if String.eqb action "save" then
    match last_answer state with
    | Some answer =>
        if String.eqb answer "" then send (CallbackAnswer "Нечего сохранять.")
        else
          on_users (add_to_favorites now (callback_from_user callback) answer) ;;;
          send (CallbackAnswer "💾 Сохранено в избранное!")
    | None => send (CallbackAnswer "Нечего сохранять.")
    end
  else ret tt.

End handlers.

(** The user store once an answer to [question] is recorded for
    [user_id]: the state is there, holds the answer and its sources, and
    the exchange ends the history. *)
Definition recorded {D} (user_id : Z) (question answer : string)
    (docs : list (string * gmap string pyval * D)) (us : users) : users :=
  add_to_history user_id question answer
    (set_user_state user_id
       [kw_last_answer (Some answer); kw_last_sources (Some (source_of <$> docs))]
       (get_user_state user_id us).1).

(** The world a run of [handle_question] leaves: what it adds to the
    messages sent and to the log. *)
Definition after {R} (w : world R) (us : users) (new : list outgoing)
    (logs : list string) (r : R) : world R :=
  {| user_state := us; sent := sent w ++ new; logged := logged w ++ logs; rag := r |}.

End Bot.

(* ===================================================================== *)
(** ** Concrete inputs *)
(* ===================================================================== *)

Module Sample.

Import RagService.

(** A one-dimensional embedding function. *)
Definition embed1 (texts : list string) : list Z :=
  (λ t, Z.of_nat (String.length t)) <$> texts.

(** An index that answers every query with one passage. *)
Definition one_hit : query_result Z :=
  {| documents := Some [["D"]];
     metadatas := Some [[ {["source" := PStr "S"]} ]];
     distances := Some [[0%Z]] |}.

Definition index_ok (n : nat) (e : Z) (k : nat) : result (query_result Z) := Ok one_hit.

(** An index whose data file cannot be opened. *)
Definition index_corrupted (n : nat) (e : Z) (k : nat) : result (query_result Z) :=
  Raise (RuntimeError "Cannot open header file").

(** A generation service that is overloaded at every call. *)
Definition always_503 (n : nat) (system_msg user_msg : string) : result string :=
  Raise (ResponseError "server busy, please try again" 503).

(** A generation service that rejects the request. *)
Definition always_404 (n : nat) (system_msg user_msg : string) : result string :=
  Raise (ResponseError "model 'llama3.2' not found" 404).

(** A question and one retrieved passage. *)
Definition what_is_rag : string := "What is RAG?".

Definition one_passage : list (string * gmap string pyval * Z) :=
  [("Retrieval comes first.", {["source" := PStr "data/raw/notes.txt"]}, 0%Z)].

Definition two_passages : list (string * gmap string pyval * Z) :=
  [("Retrieval comes first.", {["source" := PStr "data/raw/notes.txt"]}, 0%Z);
   ("Generation follows.", {["source" := PStr "data/raw/intro.md"]}, 1%Z)].

(** A readable text file and a PDF that pypdf cannot parse. *)
Definition notes_txt : Ingest.file :=
  {| Ingest.rel := "data/raw/notes.txt"; Ingest.name := "notes.txt";
     Ingest.suffix := ".txt";
     Ingest.read_text := Ok "The mitochondria is the powerhouse of the cell.";
     Ingest.pdf_pages := Raise (OtherError "PdfReadError" "EOF marker not found");
     Ingest.docx2txt_process := Raise (OtherError "BadZipFile" "File is not a zip file") |}.

Definition scan_pdf : Ingest.file :=
  {| Ingest.rel := "data/raw/scan.pdf"; Ingest.name := "scan.pdf";
     Ingest.suffix := ".pdf";
     Ingest.read_text := Ok "%PDF-1.4 truncated";
     Ingest.pdf_pages := Raise (OtherError "PdfReadError" "EOF marker not found");
     Ingest.docx2txt_process := Raise (OtherError "BadZipFile" "File is not a zip file") |}.

Definition notes_doc : string * gmap string pyval :=
  ("The mitochondria is the powerhouse of the cell.", Ingest.meta_of notes_txt).

(** A source directory with these two files, one with the first only,
    and an empty one. *)
Definition two_files (ext : string) : list Ingest.file :=
  if String.eqb ext "*.txt" then [notes_txt]
  else if String.eqb ext "*.pdf" then [scan_pdf] else [].

Definition one_file (ext : string) : list Ingest.file :=
  if String.eqb ext "*.txt" then [notes_txt] else [].

Definition empty_directory (ext : string) : list Ingest.file := [].

(** A second text file, and a directory that yields the two text files
    in one order or in the other. *)
Definition intro_txt : Ingest.file :=
  {| Ingest.rel := "data/raw/intro.txt"; Ingest.name := "intro.txt";
     Ingest.suffix := ".txt";
     Ingest.read_text := Ok "Retrieval comes first.";
     Ingest.pdf_pages := Raise (OtherError "PdfReadError" "EOF marker not found");
     Ingest.docx2txt_process := Raise (OtherError "BadZipFile" "File is not a zip file") |}.

Definition notes_then_intro (ext : string) : list Ingest.file :=
  if String.eqb ext "*.txt" then [notes_txt; intro_txt] else [].

Definition intro_then_notes (ext : string) : list Ingest.file :=
  if String.eqb ext "*.txt" then [intro_txt; notes_txt] else [].

(** A splitter that keeps a text in one piece. *)
Definition whole (text : string) : list string := [text].

(** Stands for the digest where a run is evaluated. *)
Definition digest (s : string) : string := "md5:" +:+ s.

Definition edu_assistant : string := "edu_assistant".

(** A store whose collection holds one entry of an earlier run. *)
Definition populated : gmap string (Chroma.collection Z) :=
  {[ edu_assistant :=
       {| Chroma.settings := None;
          Chroma.entries :=
            {[ "0f3a" := {| Chroma.document := "stale"; Chroma.metadata := ∅;
                            Chroma.embedding := 5%Z |} ]} |} ]}.

(** A PDF whose pages hold no text: a scanned page and a page of white
    space. *)
Definition blank_pdf : Ingest.file :=
  {| Ingest.rel := "data/raw/blank.PDF"; Ingest.name := "blank.PDF";
     Ingest.suffix := ".PDF";
     Ingest.read_text := Ok "%PDF-1.4";
     Ingest.pdf_pages := Ok [Ok None; Ok (Some ("  " +:+ nl))];
     Ingest.docx2txt_process := Raise (OtherError "BadZipFile" "File is not a zip file") |}.

(** The batch of the one-file directory. *)
Definition notes_texts : list string := (Ingest.build_chunks whole [notes_doc]).1.
Definition notes_metas : list (gmap string pyval) := (Ingest.build_chunks whole [notes_doc]).2.

(** Results of a query that lack a key, or hold no hit list. *)
Definition without_distances : query_result Z :=
  {| documents := Some [["D"]];
     metadatas := Some [[ {["source" := PStr "S"]} ]];
     distances := None |}.

Definition index_without_distances (n : nat) (e : Z) (k : nat) : result (query_result Z) :=
  Ok without_distances.

Definition no_hit_lists : query_result Z :=
  {| documents := Some []; metadatas := Some []; distances := Some [] |}.

Definition index_no_hit_lists (n : nat) (e : Z) (k : nat) : result (query_result Z) :=
  Ok no_hit_lists.

(** An index whose collection is gone. *)
Definition index_gone (n : nat) (e : Z) (k : nat) : result (query_result Z) :=
  Raise (ValueError "Collection edu_assistant does not exist.").

(** A generation service that cannot be reached, and one that answers. *)
Definition connection_refused (n : nat) (system_msg user_msg : string) : result string :=
  Raise (OtherError "ConnectionError" "Failed to connect to Ollama.").

Definition always_answers (n : nat) (system_msg user_msg : string) : result string :=
  Ok "Retrieval first, then generation.".

(** A chromadb client that refuses every call. *)
Definition client_refuses (n : nat) (c : RagInit.client_call) : result unit :=
  Raise (ValueError "Could not connect to tenant default_tenant").

(** Telegram accepting every message, no message, the first message
    only, and every message but one sent as Markdown. *)
Definition telegram_ok (n : nat) (o : Bot.outgoing) : result unit := Ok tt.

Definition telegram_down (n : nat) (o : Bot.outgoing) : result unit :=
  Raise (OtherError "TelegramNetworkError" "Request timeout error").

Definition only_first_delivered (n : nat) (o : Bot.outgoing) : result unit :=
  match n with
  | 0 => Ok tt
  | S _ => Raise (OtherError "TelegramNetworkError" "Request timeout error")
  end.

Definition markdown_rejected (n : nat) (o : Bot.outgoing) : result unit :=
  match o with
  | Bot.Answer _ Bot.MarkdownMode _ =>
      Raise (OtherError "TelegramBadRequest" "can't parse entities")
  | _ => Ok tt
  end.

(** A message of user 42, and the two buttons under an answer. *)
Definition hello : Bot.message :=
  {| Bot.text := Some "  What is RAG?  "; Bot.from_user := Some 42%Z |}.

Definition save_pressed : Bot.callback_query :=
  {| Bot.data := "fb:save"; Bot.callback_from_user := 42%Z |}.

Definition like_pressed : Bot.callback_query :=
  {| Bot.data := "fb:good"; Bot.callback_from_user := 42%Z |}.

(** A service object that answers with two passages, one that fails;
    its state counts the calls. *)
Definition answers (q : string) : Py.M nat (string * list (string * gmap string pyval * Z)) :=
  λ n, (S n, Ok ("Retrieval first, then generation.", two_passages)).

Definition refuses (q : string) : Py.M nat (string * list (string * gmap string pyval * Z)) :=
  λ n, (S n, Raise (RuntimeError overloaded_message)).

(** A set that yields its values in the order of their first
    occurrence. *)
Definition in_order (l : list pyval) : list pyval := remove_dups l.

(** The bot before its first message, and after one exchange with
    user 42. *)
Definition fresh_bot {R} (r : R) : Bot.world R :=
  {| Bot.user_state := ∅; Bot.sent := []; Bot.logged := []; Bot.rag := r |}.

Definition one_exchange : Bot.state :=
  {| Bot.history := [("What is RAG?", "Retrieval first, then generation.")];
     Bot.favorites := [];
     Bot.last_answer := Some "Retrieval first, then generation.";
     Bot.last_sources := [PStr "data/raw/notes.txt"; PStr "data/raw/intro.md"];
     Bot.awaiting := None |}.

Definition after_one_exchange : Bot.world nat :=
  {| Bot.user_state := {[ 42%Z := one_exchange ]}; Bot.sent := []; Bot.logged := [];
     Bot.rag := 1 |}.

Definition half_past_nine : string := "2024-05-17T09:30:00.000000".

(** A passage that holds two lines of code, the second one indented. *)
Definition two_lines_of_code : string := "def f():" +:+ nl +:+ "    return 1".

Definition code_passage : list (string * gmap string pyval * Z) :=
  [(two_lines_of_code, {["source" := PStr "data/raw/code.md"]}, 0%Z)].

(** A question whose second line is indented. *)
Definition question_with_a_list : string := "Compare:" +:+ nl +:+ "  - BM25".

(** An index whose data cannot be read, with another message than the
    one about the header file. *)
Definition index_malformed (n : nat) (e : Z) (k : nat) : result (query_result Z) :=
  Raise (RuntimeError "database disk image is malformed").

End Sample.

(* ===================================================================== *)
(** * Properties *)
(* ===================================================================== *)

Module PyFacts.

Lemma bind_ok {S A B} (m : M S A) (k : A → M S B) st st' a :
  m st = (st', Ok a) → bind m k st = k a st'.
Proof. intros H. unfold bind. by rewrite H. Qed.

Lemma bind_raise {S A B} (m : M S A) (k : A → M S B) st st' e :
  m st = (st', Raise e) → bind m k st = (st', Raise e).
Proof. intros H. unfold bind. by rewrite H. Qed.

Lemma try_except_ok {S A} (m : M S A) h st st' a :
  m st = (st', Ok a) → try_except m h st = (st', Ok a).
Proof. intros H. unfold try_except. by rewrite H. Qed.

Lemma try_except_raise {S A} (m : M S A) h st st' e :
  m st = (st', Raise e) → try_except m h st = h e st'.
Proof. intros H. unfold try_except. by rewrite H. Qed.

Section keeps.
Context {S X : Type} (f : S → X).

Lemma keeps_ret {A} (a : A) : keeps f (ret a).
Proof. by intros st st' r [= <- _]. Qed.

Lemma keeps_raise {A} e : keeps f (raise (A:=A) e).
Proof. by intros st st' r [= <- _]. Qed.

Lemma keeps_lift {A} (x : result A) : keeps f (lift x).
Proof. by intros st st' r [= <- _]. Qed.

Lemma keeps_bind {A B} (m : M S A) (k : A → M S B) :
  keeps f m → (∀ a, keeps f (k a)) → keeps f (bind m k).
Proof.
  intros Hm Hk st st' r. unfold bind.
  destruct (m st) as [st1 [a|e]] eqn:E; intros H.
  - rewrite (Hk _ _ _ _ H). eauto.
  - injection H as <- _. eauto.
Qed.

Lemma keeps_try_except {A} (m : M S A) h :
  keeps f m → (∀ e, keeps f (h e)) → keeps f (try_except m h).
Proof.
  intros Hm Hh st st' r. unfold try_except.
  destruct (m st) as [st1 [a|e]] eqn:E; intros H.
  - injection H as <- _. eauto.
  - rewrite (Hh _ _ _ _ H). eauto.
Qed.

Lemma keeps_if {A} (b : bool) (m1 m2 : M S A) :
  keeps f m1 → keeps f m2 → keeps f (if b then m1 else m2).
Proof. by destruct b. Qed.

End keeps.

(** *** Strings *)

Lemma append_cons c (s t : string) : String c s +:+ t = String c (s +:+ t).
Proof. reflexivity. Qed.

Lemma append_nil_l (s : string) : "" +:+ s = s.
Proof. reflexivity. Qed.

Lemma append_nil_r (s : string) : s +:+ "" = s.
Proof. induction s as [|c s IH]; [done|]. by rewrite append_cons, IH. Qed.

Lemma append_assoc (a b c : string) : (a +:+ b) +:+ c = a +:+ b +:+ c.
Proof. induction a as [|x a IH]; [done|]. by rewrite !append_cons, IH. Qed.

(** *** Lines *)

Lemma lines_nonempty s : lines s ≠ [].
Proof.
  destruct s as [|c s]; [done|]. cbn.
  destruct (Ascii.eqb c LF); [done|]. by destruct (lines s).
Qed.

Lemma lines_cons c s :
  lines (String c s) =
  if Ascii.eqb c LF then "" :: lines s
  else match lines s with l :: ls => String c l :: ls | [] => [String c ""] end.
Proof. reflexivity. Qed.

Lemma lines_app_nl a b : lines (a +:+ String LF b) = lines a ++ lines b.
Proof.
  induction a as [|c a IH].
  - reflexivity.
  - rewrite append_cons, !lines_cons, IH.
    destruct (Ascii.eqb c LF); [done|].
    pose proof (lines_nonempty a). by destruct (lines a).
Qed.

(** A string of one line in front of a text lengthens its first line. *)
Lemma lines_prefix h s f r :
  lines h = [h] → lines s = f :: r → lines (h +:+ s) = (h +:+ f) :: r.
Proof.
  intros Hh Hs. induction h as [|c h IH]; [done|].
  rewrite lines_cons in Hh. rewrite append_cons, lines_cons.
  pose proof (lines_nonempty h) as Hne.
  destruct (Ascii.eqb c LF).
  - destruct (lines h); [done|discriminate].
  - destruct (lines h) as [|l ls] eqn:E; [done|].
    injection Hh as -> ->. by rewrite IH.
Qed.

Lemma join_cons_head sep c l ls :
  join sep (String c l :: ls) = String c (join sep (l :: ls)).
Proof. by destruct ls. Qed.

Lemma join_cons2 sep x y ys : join sep (x :: y :: ys) = x +:+ sep +:+ join sep (y :: ys).
Proof. reflexivity. Qed.

Lemma unlines_lines s : unlines (lines s) = s.
Proof.
  unfold unlines. induction s as [|c s IH]; [done|].
  rewrite lines_cons. pose proof (lines_nonempty s) as Hne.
  destruct (Ascii.eqb_spec c LF) as [->|_].
  - destruct (lines s) as [|l ls]; [done|]. by rewrite join_cons2, IH.
  - destruct (lines s) as [|l ls]; [done|]. by rewrite join_cons_head, IH.
Qed.

Lemma unlines_cons x y ys : unlines (x :: y :: ys) = x +:+ String LF (unlines (y :: ys)).
Proof. reflexivity. Qed.

Lemma lines_unlines_cons x y ys :
  lines (unlines (x :: y :: ys)) = lines x ++ lines (unlines (y :: ys)).
Proof. by rewrite unlines_cons, lines_app_nl. Qed.

(** *** Blank prefixes and lines that start at the left edge *)

Lemma all_blank_app h l : all_blank (h +:+ l) = all_blank h && all_blank l.
Proof.
  induction h as [|c h IH]; [done|]. rewrite append_cons. cbn.
  by rewrite IH, andb_assoc.
Qed.

Lemma col0_all_blank l : col0 l = true → all_blank l = true → l = "".
Proof.
  destruct l as [|c l]; [done|]. cbn. intros H. apply negb_true_iff in H. by rewrite H.
Qed.

Lemma solid_not_blank l : col0 l = true → nonempty l = true → all_blank l = false.
Proof.
  destruct l as [|c l]; [done|]. cbn. intros H _. apply negb_true_iff in H. by rewrite H.
Qed.

Lemma blank_line_col0 l : col0 l = true → blank_line l = l.
Proof.
  intros H. unfold blank_line. destruct (all_blank l) eqn:E; [|done].
  by rewrite (col0_all_blank l).
Qed.

Lemma indent_of_col0 l :
  col0 l = true → indent_of l = if nonempty l then Some "" else None.
Proof.
  destruct l as [|c l]; [done|]. cbn. intros H. apply negb_true_iff in H.
  unfold indent_of. cbn. by rewrite H.
Qed.

Lemma drop_prefix_app h l : drop_prefix h (h +:+ l) = Some l.
Proof.
  induction h as [|c h IH]; [by destruct l|].
  rewrite append_cons. cbn. by rewrite Ascii.eqb_refl.
Qed.

Lemma leading_blank_app h l :
  all_blank h = true → leading_blank (h +:+ l) = h +:+ leading_blank l.
Proof.
  induction h as [|c h IH]; [done|]. cbn. intros [Hc Hh]%andb_true_iff.
  rewrite append_cons. cbn. by rewrite Hc, IH.
Qed.

Lemma leading_blank_col0 l : col0 l = true → leading_blank l = "".
Proof. destruct l as [|c l]; [done|]. cbn. intros H%negb_true_iff. by rewrite H. Qed.

Lemma indents_cons l ls :
  indents (l :: ls) =
  match indent_of l with Some i => i :: indents ls | None => indents ls end.
Proof. reflexivity. Qed.

Lemma indents_app l1 l2 : indents (l1 ++ l2) = indents l1 ++ indents l2.
Proof. apply omap_app. Qed.

Lemma dedent_margin text m :
  margin_of (indents (blank_line <$> lines text)) = Some m →
  dedent text =
  if nonempty m then unlines (remove_margin m <$> (blank_line <$> lines text))
  else unlines (blank_line <$> lines text).
Proof. unfold dedent. intros ->. by destruct m. Qed.

Section margin.
(** A non-empty run of blanks, the indentation of the template. *)
Variable h : string.
Hypothesis h_blank : all_blank h = true.
Hypothesis h_nonempty : nonempty h = true.

Lemma remove_margin_col0 l : col0 l = true → remove_margin h l = l.
Proof.
  unfold remove_margin. destruct h as [|x h']; [done|]. destruct l as [|c l]; [done|].
  cbn. intros H%negb_true_iff.
  cbn in h_blank. apply andb_true_iff in h_blank as [Hx _].
  destruct (Ascii.eqb_spec x c) as [->|_]; [congruence|done].
Qed.

Lemma remove_margin_app l : remove_margin h (h +:+ l) = l.
Proof. unfold remove_margin. by rewrite drop_prefix_app. Qed.

Lemma blank_line_margin : blank_line h = "".
Proof. unfold blank_line. by rewrite h_blank. Qed.

Lemma blank_line_app l :
  col0 l = true → nonempty l = true → blank_line (h +:+ l) = h +:+ l.
Proof.
  intros H1 H2. unfold blank_line.
  by rewrite all_blank_app, (solid_not_blank l H1 H2), andb_false_r.
Qed.

Lemma indent_of_app l :
  col0 l = true → nonempty l = true → indent_of (h +:+ l) = Some h.
Proof.
  intros H1 H2. unfold indent_of.
  rewrite all_blank_app, (solid_not_blank l H1 H2), andb_false_r.
  by rewrite leading_blank_app, leading_blank_col0, append_nil_r.
Qed.

Lemma startswith_refl s : startswith s s = true.
Proof.
  unfold startswith. induction s as [|c s IH]; [done|]. cbn. by rewrite Ascii.eqb_refl.
Qed.

Lemma margin_step_same : margin_step (Some h) h = Some h.
Proof. unfold margin_step. by rewrite startswith_refl. Qed.

Lemma margin_step_empty m : margin_step (Some m) "" = Some "".
Proof. unfold margin_step, startswith. by destruct m. Qed.

Lemma margin_step_from_empty i : margin_step (Some "") i = Some "".
Proof. unfold margin_step, startswith. by destruct i. Qed.

Lemma margin_empties m ins :
  Forall (λ i, i = "") ins →
  fold_left margin_step ins (Some m) = Some (match ins with [] => m | _ => "" end).
Proof.
  intros H. revert m. induction H as [|i ins -> _ IH]; intros m; [done|].
  cbn [fold_left]. rewrite margin_step_empty, IH. by destruct ins.
Qed.

(** The margin of a text whose indented lines all have the indentation
    [h] and whose other lines start at the left edge. *)
Lemma margin_of_template ins1 ins2 :
  Forall (λ i, i = "") ins1 → Forall (λ i, i = "") ins2 →
  margin_of (h :: ins1 ++ h :: h :: ins2)
  = Some (match ins1 ++ ins2 with [] => h | _ => "" end).
Proof.
  intros H1 H2. unfold margin_of. cbn [fold_left]. rewrite fold_left_app. cbn [fold_left].
  change (margin_step None h) with (Some h).
  rewrite (margin_empties h ins1 H1).
  destruct ins1 as [|i ins1]; cbn [app].
  - rewrite !margin_step_same. apply (margin_empties h ins2 H2).
  - rewrite !margin_step_from_empty. rewrite (margin_empties "" ins2 H2). by destruct ins2.
Qed.

Lemma indents_col0 ls :
  Forall (λ l, col0 l = true) ls →
  Forall (λ i, i = "") (indents ls)
  ∧ (indents ls = [] ↔ existsb nonempty ls = false).
Proof.
  unfold indents. induction 1 as [|l ls Hl _ [IH1 IH2]]; [done|].
  cbn [omap list_omap existsb]. rewrite (indent_of_col0 l Hl).
  destruct (nonempty l); cbn; [|done].
  split; [by constructor|done].
Qed.

Lemma fmap_blank_line_col0 ls :
  Forall (λ l, col0 l = true) ls → blank_line <$> ls = ls.
Proof.
  induction 1 as [|l ls Hl _ IH]; [done|]. cbn. by rewrite (blank_line_col0 l Hl), IH.
Qed.

Lemma fmap_remove_margin_col0 ls :
  Forall (λ l, col0 l = true) ls → remove_margin h <$> ls = ls.
Proof.
  induction 1 as [|l ls Hl _ IH]; [done|]. cbn. by rewrite (remove_margin_col0 l Hl), IH.
Qed.

(** [dedent] on a text of the shape of the user template: three indented
    lines that hold something, a blank line, a last blank line, and lines
    in between that start at the left edge. *)
Lemma dedent_template text a b c qc bc :
  col0 a = true → nonempty a = true →
  col0 b = true → nonempty b = true →
  col0 c = true → nonempty c = true →
  Forall (λ l, col0 l = true) qc → Forall (λ l, col0 l = true) bc →
  lines text = [h +:+ a] ++ qc ++ [h; h +:+ b; h +:+ c] ++ bc ++ [h] →
  let m := if existsb nonempty qc || existsb nonempty bc then h else "" in
  dedent text = unlines ([m +:+ a] ++ qc ++ [""; m +:+ b; m +:+ c] ++ bc ++ [""]).
Proof.
  intros Ha Ha' Hb Hb' Hc Hc' Hqc Hbc Hl m.
  assert (blank_line <$> lines text
          = [h +:+ a] ++ qc ++ [""; h +:+ b; h +:+ c] ++ bc ++ [""]) as Hn.
  { rewrite Hl. cbn [app]. rewrite fmap_cons, fmap_app, !fmap_cons, fmap_app.
    cbn [fmap list_fmap app].
    rewrite !blank_line_app, blank_line_margin by done.
    by rewrite !fmap_blank_line_col0 by done. }
  destruct (indents_col0 qc Hqc) as [Hq1 Hq2], (indents_col0 bc Hbc) as [Hb1 Hb2].
  assert (margin_of (indents (blank_line <$> lines text))
          = Some (if existsb nonempty qc || existsb nonempty bc then "" else h)) as Hm.
  { rewrite Hn. cbn [app].
    rewrite indents_cons, indents_app, !indents_cons, indents_app, indents_cons.
    rewrite !indent_of_app by done. change (indent_of "") with (@None string).
    cbn [indents omap list_omap]. rewrite app_nil_r.
    rewrite (margin_of_template _ _ Hq1 Hb1). f_equal.
    destruct (indents qc) as [|i1 l1].
    - assert (existsb nonempty qc = false) as -> by by apply Hq2.
      destruct (indents bc) as [|i2 l2].
      + by assert (existsb nonempty bc = false) as -> by by apply Hb2.
      + assert (existsb nonempty bc = true) as ->; [|done].
        destruct (existsb nonempty bc); [done|]. destruct Hb2 as [_ H]. by specialize (H eq_refl).
    - assert (existsb nonempty qc = true) as ->; [|done].
      destruct (existsb nonempty qc); [done|]. destruct Hq2 as [_ H]. by specialize (H eq_refl). }
  rewrite (dedent_margin _ _ Hm), Hn. subst m.
  destruct (existsb nonempty qc || existsb nonempty bc); [done|].
  rewrite h_nonempty. cbn [app].
  rewrite fmap_cons, fmap_app, !fmap_cons, fmap_app. cbn [fmap list_fmap app].
  rewrite !remove_margin_app, !fmap_remove_margin_col0 by done.
  by rewrite (remove_margin_col0 "").
Qed.

End margin.

Lemma forallb_Forall {A} (f : A → bool) l :
  forallb f l = true → Forall (λ x, f x = true) l.
Proof.
  induction l as [|x l IH]; [constructor|]. cbn.
  intros [H1 H2]%andb_true_iff. constructor; auto.
Qed.

(** *** strip *)

Lemma rev_string_app acc a b :
  rev_string acc (a +:+ b) = rev_string (rev_string acc a) b.
Proof. revert acc. induction a as [|c a IH]; intros acc; [done|]. by rewrite append_cons; cbn. Qed.

Lemma rstrip_newline s : rstrip (s +:+ nl) = rstrip s.
Proof. unfold rstrip. by rewrite rev_string_app. Qed.

(** *** Occurrences *)

Lemma contains_unfold needle hay :
  contains needle hay =
  startswith hay needle
  || match hay with EmptyString => false | String _ hay' => contains needle hay' end.
Proof. by destruct hay. Qed.

Lemma occurs_then_unfold a b s :
  occurs_then a b s =
  match drop_prefix a s with Some rest => contains b rest | None => false end
  || match s with EmptyString => false | String _ s' => occurs_then a b s' end.
Proof. by destruct s. Qed.

Lemma contains_app b mid post : contains b (mid +:+ b +:+ post) = true.
Proof.
  induction mid as [|c mid IH].
  - rewrite append_nil_l, contains_unfold. unfold startswith.
    by rewrite drop_prefix_app.
  - rewrite append_cons, contains_unfold, IH. apply orb_true_r.
Qed.

Lemma occurs_then_sound a b s : followed_by a b s → occurs_then a b s = true.
Proof.
  intros (pre & mid & post & ->). induction pre as [|c pre IH].
  - rewrite append_nil_l, occurs_then_unfold.
    by rewrite drop_prefix_app, contains_app.
  - rewrite append_cons, occurs_then_unfold, IH. apply orb_true_r.
Qed.

End PyFacts.

Module RagServiceFacts.

Import PyFacts RagService Sample.

#[local] Ltac frame lemmas :=
  repeat first
    [ lemmas
    | apply keeps_bind; [|intros ?] | apply keeps_try_except; [|intros ?]
    | apply keeps_if | apply keeps_lift | apply keeps_ret | apply keeps_raise ].

(** Whether a name is bound in a given namespace, by computation. *)
#[local] Ltac in_namespace := apply (bool_decide_unpack _); vm_compute; exact I.

Section service.
Context {V D : Type}.
Variable globals : list string.
Variable embed_fn : list string → list V.
Variable collection_query : nat → V → nat → result (query_result D).
Variable ollama_chat : nat → string → string → result string.
Variable TOP_K : nat.

Lemma keeps_name {X} (f : world → X) x : keeps f (name globals x).
Proof. unfold name. case_bool_decide; [apply keeps_ret | apply keeps_raise]. Qed.

Lemma keeps_logging_say msg : keeps generation (logging_say globals msg).
Proof. apply keeps_bind; [apply keeps_name|]. by intros _ st st' r [= <- _]. Qed.

Lemma keeps_query (e : V) k : keeps generation (query collection_query e k).
Proof. by intros st st' r [= <- _]. Qed.

(** Retrieval neither calls the generation service nor sleeps. *)
Lemma retrieve_keeps_generation q k :
  keeps generation (retrieve globals embed_fn collection_query q k).
Proof.
  unfold retrieve. frame ltac:(first [apply keeps_query | apply keeps_logging_say]).
Qed.

Lemma name_bound x w : x ∈ globals → name globals x w = (w, Ok tt).
Proof. intros H. unfold name. by rewrite bool_decide_true. Qed.

Lemma name_unbound x w :
  x ∉ globals →
  name globals x w = (w, Raise (NameError ("name '" +:+ x +:+ "' is not defined"))).
Proof. intros H. unfold name. by rewrite bool_decide_false. Qed.

Lemma logging_say_bound msg w :
  "logging" ∈ globals → logging_say globals msg w = (add_log msg w, Ok tt).
Proof. intros H. unfold logging_say. by rewrite (bind_ok _ _ _ _ _ (name_bound _ w H)). Qed.

(** *** One turn of the retry loop, by what the service answers *)

Abbreviation attempts' := (attempts (D:=D) globals ollama_chat).

Lemma attempt_answers a rng s u docs last w answer :
  ollama_chat (chat_calls w) s u = Ok answer →
  attempts' (a :: rng) s u docs last w = (count_chat w, Ok (answer, docs)).
Proof.
  intros H. cbn [attempts]. apply try_except_ok.
  unfold bind, chat. by rewrite H.
Qed.

Lemma attempt_raises a rng s u (docs : list (string * gmap string pyval * D)) last w e :
  ollama_chat (chat_calls w) s u = Raise e →
  attempts' (a :: rng) s u docs last w =
  match e with
  | ResponseError text status =>
      if (status =? 503)%Z then
        if (a <? 2)%Z then
          (logging_say globals ("Ollama 503, retry " +:+ pretty (a + 1)%Z +:+
                                "/3 after " +:+ pretty (2 + a * 3)%Z +:+ "s") ;;;
           time_sleep globals (2 + a * 3) ;;;
           attempts' rng s u docs last) (count_chat w)
        else (count_chat w, Raise (RuntimeError overloaded_message))
      else (count_chat w,
            Raise (RuntimeError ("Ollama error (" +:+ pretty status +:+ "): " +:+
                     (if String.eqb (strip text) "" then "service unavailable"
                      else strip text))))
  | _ => (count_chat w, Raise e)
  end.
Proof.
  intros H. cbn [attempts]. erewrite try_except_raise; last first.
  { apply bind_raise. unfold chat. by rewrite H. }
  destruct e; try reflexivity.
  destruct (status_code =? 503)%Z; [|reflexivity].
  destruct (a <? 2)%Z; reflexivity.
Qed.

(** An overloaded service, a turn that may retry, and the module as it
    is: the turn ends in [time.sleep], where [time] is not bound. *)
Lemma attempt_503_time_unbound a rng s u (docs : list (string * gmap string pyval * D))
    last w text :
  "logging" ∈ globals → "time" ∉ globals → (a < 2)%Z →
  ollama_chat (chat_calls w) s u = Raise (ResponseError text 503) →
  ∃ msg, attempts' (a :: rng) s u docs last w =
         (add_log msg (count_chat w), Raise (NameError "name 'time' is not defined")).
Proof.
  intros Hl Ht Ha H. rewrite (attempt_raises _ _ _ _ _ _ _ _ H).
  cbn [Z.eqb Pos.eqb]. apply Z.ltb_lt in Ha as ->.
  eexists. erewrite bind_ok by by apply logging_say_bound.
  apply bind_raise. unfold time_sleep. apply bind_raise. by apply name_unbound.
Qed.

(** The same turn when [time] is bound: it waits [2 + 3 * a] seconds and
    goes on with the next turn. *)
Lemma attempt_503_retries a rng s u (docs : list (string * gmap string pyval * D))
    last w text :
  "logging" ∈ globals → "time" ∈ globals → (a < 2)%Z →
  ollama_chat (chat_calls w) s u = Raise (ResponseError text 503) →
  ∃ msg, attempts' (a :: rng) s u docs last w =
         attempts' rng s u docs last (add_sleep (2 + a * 3) (add_log msg (count_chat w))).
Proof.
  intros Hl Ht Ha H. rewrite (attempt_raises _ _ _ _ _ _ _ _ H).
  cbn [Z.eqb Pos.eqb]. apply Z.ltb_lt in Ha as ->.
  eexists. erewrite bind_ok by by apply logging_say_bound.
  erewrite bind_ok; [reflexivity|].
  unfold time_sleep. by erewrite bind_ok by by apply name_bound.
Qed.

(** With [time] bound the loop is the one the module means to run: an
    overloaded service is asked three times, after waits of 2 and 5
    seconds, and the third refusal is fatal. *)
Lemma overload_three_attempts_when_time_bound question w0 w1 docs :
  "logging" ∈ globals → "time" ∈ globals →
  retrieve globals embed_fn collection_query question TOP_K w0 = (w1, Ok docs) →
  (∀ n s u, ∃ text, ollama_chat n s u = Raise (ResponseError text 503)) →
  ∃ w, generate_answer globals embed_fn collection_query ollama_chat TOP_K question w0
       = (w, Raise (RuntimeError overloaded_message))
     ∧ chat_calls w = 3 + chat_calls w0
     ∧ sleeps w = sleeps w0 ++ [2; 5]%Z.
Proof.
  intros Hl Ht Hr Hc. unfold generate_answer.
  rewrite (bind_ok _ _ _ _ _ Hr).
  destruct (_build_prompt question docs) as [s u].
  pose proof (retrieve_keeps_generation _ _ _ _ _ Hr) as [= Hk1 Hk2].
  change (range 3) with [0; 1; 2]%Z.
  destruct (Hc (chat_calls w1) s u) as [t0 H0].
  destruct (attempt_503_retries 0 [1; 2]%Z s u docs None w1 t0) as [m0 ->]; [done..|].
  set (wa := add_sleep _ _).
  destruct (Hc (chat_calls wa) s u) as [t1 H1].
  destruct (attempt_503_retries 1 [2]%Z s u docs None wa t1) as [m1 ->]; [done..|].
  set (wb := add_sleep _ _).
  destruct (Hc (chat_calls wb) s u) as [t2 H2].
  rewrite (attempt_raises _ _ _ _ _ _ _ _ H2). cbn [Z.eqb Pos.eqb Z.ltb Z.compare Pos.compare Pos.compare_cont].
  eexists; split; [reflexivity|]. subst wa wb; cbn.
  rewrite Hk1, Hk2, <- app_assoc. done.
Qed.

(** Whatever exception the query of the index raises, the call ends
    with an exception after that one query: no component asks the index
    again, and the generation service is not called. *)
Lemma query_failure_not_retried question w0 emb e :
  first (embed_fn [question]) = Ok emb →
  collection_query (query_calls w0) emb TOP_K = Raise e →
  ∃ w e', generate_answer globals embed_fn collection_query ollama_chat TOP_K question w0
          = (w, Raise e')
        ∧ query_calls w = 1 + query_calls w0
        ∧ chat_calls w = chat_calls w0.
Proof.
  intros He Hq.
  assert (∃ w e', retrieve globals embed_fn collection_query question TOP_K w0
                  = (w, Raise e')
                ∧ query_calls w = 1 + query_calls w0
                ∧ chat_calls w = chat_calls w0) as (w & e' & Hr & H1 & H2).
  { assert (query collection_query emb TOP_K w0 = (count_query w0, Raise e)) as Hx
      by (unfold query; by rewrite Hq).
    unfold retrieve. rewrite He. cbn [lift bind]. unfold bind at 1.
    rewrite (try_except_raise _ _ _ _ _ Hx).
    destruct (is_RuntimeError e);
      [destruct (contains "Cannot open header file" (str_exn e))|];
      [|by eexists _, _..].
    unfold logging_say, name, bind, ret, raise.
    case_bool_decide; by eexists _, _. }
  exists w, e'. split; [|done]. unfold generate_answer. by erewrite bind_raise.
Qed.

End service.

(** C1, on the module as it is. When the generation service answers
    every call with status 503, [generate_answer] asks it once: the first
    refusal takes the retry branch, which logs the retry and then
    evaluates [time.sleep], and rag_service.py never imports [time]. The
    call ends in a NameError after one attempt and no wait; the three
    attempts, the growing waits and the remediation text of the claim are
    not reached. *)
Theorem overload_ends_in_NameError_after_one_attempt {V D}
    (embed_fn : list string → list V)
    (collection_query : nat → V → nat → result (query_result D))
    (ollama_chat : nat → string → string → result string)
    (TOP_K : nat) (question : string) (w0 w1 : world) docs :
  retrieve rag_service_globals embed_fn collection_query question TOP_K w0 = (w1, Ok docs) →
  (∀ n s u, ∃ text, ollama_chat n s u = Raise (ResponseError text 503)) →
  ∃ w, generate_answer rag_service_globals embed_fn collection_query ollama_chat
         TOP_K question w0
       = (w, Raise (NameError "name 'time' is not defined"))
     ∧ chat_calls w = 1 + chat_calls w0
     ∧ sleeps w = sleeps w0.
Proof.
  intros Hr Hc. unfold generate_answer.
  rewrite (bind_ok _ _ _ _ _ Hr).
  destruct (_build_prompt question docs) as [s u].
  pose proof (retrieve_keeps_generation _ _ _ _ _ _ _ _ Hr) as [= Hk1 Hk2].
  change (range 3) with [0; 1; 2]%Z.
  destruct (Hc (chat_calls w1) s u) as [t0 H0].
  destruct (attempt_503_time_unbound rag_service_globals ollama_chat
              0 [1; 2]%Z s u docs None w1 t0) as [m0 ->].
  - in_namespace.
  - in_namespace.
  - done.
  - done.
  - eexists; split; [reflexivity|]. cbn. by rewrite Hk1, Hk2.
Qed.

Lemma overload_ends_in_NameError_witness :
  ∃ w, generate_answer rag_service_globals embed1 index_ok always_503 4 "Q?" world0
       = (w, Raise (NameError "name 'time' is not defined"))
     ∧ chat_calls w = 1 + chat_calls world0
     ∧ sleeps w = sleeps world0.
Proof.
  eapply overload_ends_in_NameError_after_one_attempt.
  - vm_compute. reflexivity.
  - intros n s u. eexists. reflexivity.
Defined.



(** C8, as the code has it. When the query of the index raises a
    RuntimeError that says the header file cannot be opened, the one
    failure the code takes for a corrupted index, [retrieve] has queried
    once and raises
    a RuntimeError whose message tells to delete the chroma_db folder and
    to run ingest.py with --reset; [generate_answer] ends with that same
    error, without a second query and without calling the generation
    service. *)
Theorem corrupted_index_is_fatal_and_not_retried {V D}
    (embed_fn : list string → list V)
    (collection_query : nat → V → nat → result (query_result D))
    (ollama_chat : nat → string → string → result string)
    (TOP_K : nat) (question : string) (w0 : world) emb msg :
  first (embed_fn [question]) = Ok emb →
  collection_query (query_calls w0) emb TOP_K = Raise (RuntimeError msg) →
  contains "Cannot open header file" msg = true →
  let w := add_log "ChromaDB index corrupted. Please delete chroma_db folder and run ingest.py --reset"
             (count_query w0) in
  retrieve rag_service_globals embed_fn collection_query question TOP_K w0
    = (w, Raise (RuntimeError corrupted_message))
  ∧ generate_answer rag_service_globals embed_fn collection_query ollama_chat
      TOP_K question w0
    = (w, Raise (RuntimeError corrupted_message))
  ∧ query_calls w = 1 + query_calls w0
  ∧ chat_calls w = chat_calls w0
  ∧ contains "Удалите папку 'chroma_db'" corrupted_message = true
  ∧ contains "python ingest.py --reset" corrupted_message = true.
Proof.
  intros He Hq Hm w.
  assert (retrieve rag_service_globals embed_fn collection_query question TOP_K w0
          = (w, Raise (RuntimeError corrupted_message))) as Hr.
  { unfold retrieve. rewrite He. cbn [lift bind].
    erewrite bind_raise; [reflexivity|].
    erewrite try_except_raise by (unfold query; by rewrite Hq).
    cbn [is_RuntimeError str_exn]. rewrite Hm.
    erewrite bind_ok; [reflexivity|].
    apply logging_say_bound. in_namespace. }
  split; [done|]. split.
  { unfold generate_answer. by erewrite bind_raise. }
  repeat split; by vm_compute.
Qed.

Lemma corrupted_index_witness :
  let w := add_log "ChromaDB index corrupted. Please delete chroma_db folder and run ingest.py --reset"
             (count_query world0) in
  retrieve rag_service_globals embed1 index_corrupted "Q?" 4 world0
    = (w, Raise (RuntimeError corrupted_message))
  ∧ generate_answer rag_service_globals embed1 index_corrupted always_503 4 "Q?" world0
    = (w, Raise (RuntimeError corrupted_message))
  ∧ query_calls w = 1 + query_calls world0
  ∧ chat_calls w = chat_calls world0
  ∧ contains "Удалите папку 'chroma_db'" corrupted_message = true
  ∧ contains "python ingest.py --reset" corrupted_message = true.
Proof.
  eapply (corrupted_index_is_fatal_and_not_retried embed1 index_corrupted always_503 4 "Q?" world0).
  - reflexivity.
  - reflexivity.
  - vm_compute. reflexivity.
Defined.

(** C8 as claimed fails: an index that cannot be read and says so in
    other words. [retrieve] raises the error of the index as it is; the
    message tells nothing about deleting the index or ingesting again,
    and nothing is logged. *)
Lemma unreadable_index_without_remediation :
  retrieve rag_service_globals embed1 index_malformed "Q?" 4 world0
  = (count_query world0, Raise (RuntimeError "database disk image is malformed"))
  ∧ generate_answer rag_service_globals embed1 index_malformed always_503 4 "Q?" world0
    = (count_query world0, Raise (RuntimeError "database disk image is malformed"))
  ∧ log (count_query world0) = []
  ∧ contains "chroma_db" "database disk image is malformed" = false
  ∧ contains "--reset" "database disk image is malformed" = false
  ∧ RuntimeError "database disk image is malformed" ≠ RuntimeError corrupted_message.
Proof. split_and!; try (vm_compute; reflexivity). vm_compute. discriminate. Qed.

(** *** The prompt *)

Lemma lstrip_left_over q b s : lstrip (left_over q b +:+ s) = lstrip s.
Proof. unfold left_over. by destruct (continues q || continues b). Qed.

Lemma lstrip_question_label s : lstrip (question_label +:+ s) = question_label +:+ s.
Proof. reflexivity. Qed.

Lemma lines_left_over q b : lines (left_over q b) = [left_over q b].
Proof. unfold left_over. by destruct (continues q || continues b). Qed.

Section prompt.
Context {D : Type}.
Implicit Types (p : string * gmap string pyval * D) (docs : list (string * gmap string pyval * D)).

Lemma context_part_cons p : ∃ rest, context_part p = String "[" rest.
Proof. by eexists. Qed.

Lemma lines_separated x xs :
  lines (join (nl +:+ nl) (x :: xs)) = lines x ++ (xs ≫= λ y, "" :: lines y).
Proof.
  revert x. induction xs as [|y ys IH]; intros x.
  - cbn. by rewrite app_nil_r.
  - change (join (nl +:+ nl) (x :: y :: ys))
      with (x +:+ String LF (String LF (join (nl +:+ nl) (y :: ys)))).
    rewrite lines_app_nl. rewrite lines_cons. cbn [mbind list_bind]. by rewrite IH.
Qed.

(** The lines of the context block: a first line that holds something
    and starts at the left edge, then lines that start at the left edge. *)
Lemma context_block_lines docs :
  Forall (λ p, flush_left (context_part p) = true) docs →
  ∃ bf bc, lines (context_block docs) = bf :: bc
           ∧ col0 bf = true ∧ nonempty bf = true
           ∧ Forall (λ l, col0 l = true) bc.
Proof.
  intros H. destruct H as [|p ps Hp Hps].
  - exists no_context, []. by repeat split.
  - cbn [context_block]. unfold context_of. rewrite fmap_cons, lines_separated.
    destruct (context_part_cons p) as [rest Hrest].
    unfold flush_left in Hp. rewrite Hrest in *. rewrite lines_cons in *.
    change (Ascii.eqb "[" LF) with false in *. cbv iota in *.
    pose proof (lines_nonempty rest) as Hne.
    destruct (lines rest) as [|f r]; [done|].
    exists (String "[" f), (r ++ ((context_part <$> ps) ≫= λ y, "" :: lines y)).
    repeat split. apply Forall_app. split.
    + cbn in Hp. by apply forallb_Forall.
    + clear -Hps. induction Hps as [|q qs Hq _ IH]; [constructor|].
      cbn [fmap list_fmap mbind list_bind]. constructor; [done|].
      apply Forall_app. split; [|apply IH].
      destruct (context_part_cons q) as [rest Hrest].
      unfold flush_left in Hq. rewrite Hrest in *. rewrite lines_cons in *.
      change (Ascii.eqb "[" LF) with false in *. cbv iota in *.
      pose proof (lines_nonempty rest) as Hne.
      destruct (lines rest) as [|f r]; [done|].
      constructor; [done|]. cbn in Hq. by apply forallb_Forall.
Qed.

Lemma flush_left_prefix h s : lines h = [h] → flush_left (h +:+ s) = flush_left s.
Proof.
  intros Hh. pose proof (lines_nonempty s) as Hne.
  destruct (lines s) as [|f r] eqn:E; [done|].
  unfold flush_left. by rewrite (lines_prefix h s f r Hh E), E.
Qed.

(** When the source is one line, as a path is, the condition on a
    tagged passage is the condition on its text. *)
Lemma context_part_flush_left p :
  let src := str_val (default (PStr "unknown") (p.1.2 !! "source")) in
  lines src = [src] → flush_left (context_part p) = flush_left p.1.1.
Proof.
  intros src Hsrc. unfold context_part. fold src.
  rewrite <- (append_assoc src), <- (append_assoc "[").
  apply flush_left_prefix.
  apply (lines_prefix "[" (src +:+ "] ") (src +:+ "] ") []); [done|].
  by apply (lines_prefix src "] " "] " []).
Qed.

Lemma context_of_nonempty p ps : String.eqb (context_of (p :: ps)) "" = false.
Proof. unfold context_of. rewrite fmap_cons. by destruct (context_part <$> ps). Qed.

Lemma user_template_block question docs :
  user_template question (context_of docs)
  = unlines [indent +:+ question_label +:+ question; indent;
             indent +:+ context_label; indent +:+ context_block docs; indent].
Proof.
  unfold user_template. destruct docs as [|p ps]; [done|].
  by rewrite context_of_nonempty.
Qed.

End prompt.



End RagServiceFacts.

Module IngestFacts.

Import PyFacts Chroma Ingest Sample.

(** *** The loader *)

Abbreviation readable := (λ g : file, ∃ t, extract g = Ok t).

Lemma load_files_raises fs1 f fs2 docs e :
  Forall readable fs1 → extract f = Raise e →
  load_files (fs1 ++ f :: fs2) docs = Raise e.
Proof.
  intros Hok Hf. revert docs.
  induction Hok as [|g fs1 [t Ht] _ IH]; intros docs; cbn.
  - by rewrite Hf.
  - rewrite Ht. cbn. by destruct (String.eqb (strip t) "").
Qed.

Lemma load_files_readable fs docs :
  Forall readable fs → load_files fs docs = Ok (docs ++ omap kept fs).
Proof.
  intros Hok. revert docs.
  induction Hok as [|g fs [t Ht] _ IH]; intros docs; cbn.
  - by rewrite app_nil_r.
  - unfold kept, doc_of. rewrite Ht. cbn.
    destruct (String.eqb (strip t) ""); [apply IH|].
    by rewrite IH, <- app_assoc.
Qed.

(** The two loops amount to one pass over the files in scan order. *)
Lemma load_patterns_scan rglob exts docs :
  load_patterns rglob exts docs = load_files (exts ≫= rglob) docs.
Proof.
  revert docs. induction exts as [|ext exts IH]; intros docs; [done|].
  cbn [load_patterns mbind list_bind].
  generalize (rglob ext) as fs. intros fs. revert docs.
  induction fs as [|f fs IHfs]; intros docs; cbn [load_files app rbind]; [apply IH|].
  destruct (extract f) as [t|e]; cbn [rbind]; [|done].
  destruct (String.eqb (strip t) ""); apply IHfs.
Qed.

(** Either every file of a list can be read, or there is a first one
    whose extraction raises. *)
Lemma first_failure fs :
  Forall readable fs
  ∨ ∃ fs1 f fs2 e, fs = fs1 ++ f :: fs2 ∧ Forall readable fs1 ∧ extract f = Raise e.
Proof.
  induction fs as [|f fs IH]; [by left|].
  destruct (extract f) as [t|e] eqn:E.
  - destruct IH as [IH|(fs1 & g & fs2 & e & -> & H1 & H2)].
    + left. constructor; eauto.
    + right. exists (f :: fs1), g, fs2, e. repeat split; [|done]. constructor; eauto.
  - right. exists [], f, fs, e. by repeat split.
Qed.

(** When every file can be read the scan returns, in scan order, the
    documents of the files whose text is not blank. *)
Lemma load_documents_readable rglob :
  Forall readable (scanned rglob) →
  load_documents rglob = Ok (omap kept (scanned rglob)).
Proof.
  intros H. unfold load_documents. rewrite load_patterns_scan.
  fold (scanned rglob). by rewrite (load_files_readable _ [] H).
Qed.

Lemma load_documents_empty rglob :
  (∀ ext, rglob ext = []) → load_documents rglob = Ok [].
Proof. intros H. unfold load_documents, patterns. cbn. by rewrite !H. Qed.

Lemma load_documents_ext rglob rglob' :
  (∀ ext, ext ∈ patterns → rglob ext = rglob' ext) →
  load_documents rglob = load_documents rglob'.
Proof.
  intros H. unfold load_documents, patterns. cbn.
  rewrite !H; [done|unfold patterns; set_solver..].
Qed.




(** *** The collection *)

Section pipeline.
Context {V : Type}.
Variable rglob : string → list file.
Variable split_text : string → list string.
Variable embed_fn : list string → list V.
Variable md5_hexdigest : string → string.
Variable NAME : string.

Implicit Types st : gmap string (collection V).

Abbreviation fresh := {| settings := None; entries := ∅ |}.

(** With a reset the collection is fresh, whether [delete_collection]
    found one to delete or raised. *)
Lemma ensure_collection_reset st :
  ensure_collection NAME true st = (<[NAME := fresh]> st, Ok NAME).
Proof.
  unfold ensure_collection, bind, try_except, delete_collection,
    get_or_create_collection, ret.
  destruct (st !! NAME) as [c|] eqn:E.
  - rewrite lookup_delete_eq. by rewrite insert_delete_eq.
  - by rewrite E.
Qed.

Lemma ensure_collection_keep st :
  ensure_collection NAME false st = (<[NAME := default fresh (st !! NAME)]> st, Ok NAME).
Proof.
  unfold ensure_collection, bind, try_except, get_or_create_collection, ret.
  destruct (st !! NAME) as [c|] eqn:E; cbn; [|done].
  by rewrite insert_id.
Qed.

Lemma upsert_chunks_run texts metas reset st :
  upsert_chunks embed_fn md5_hexdigest NAME texts metas reset st =
  match records (chunk_ids md5_hexdigest metas) texts metas (embed_fn texts) with
  | None => (<[NAME := target NAME reset st]> st,
             Raise (ValueError "Unequal lengths for fields"))
  | Some rs =>
      (<[NAME := {| settings := settings (target NAME reset st);
                    entries := fold_left put rs (entries (target NAME reset st)) |}]> st,
       Ok tt)
  end.
Proof.
  unfold upsert_chunks.
  assert (ensure_collection NAME reset st = (<[NAME := target NAME reset st]> st, Ok NAME)) as H.
  { destruct reset; [apply ensure_collection_reset | apply ensure_collection_keep]. }
  rewrite (bind_ok _ _ _ _ _ H). unfold upsert. rewrite lookup_insert_eq.
  destruct (records _ _ _ _); [|done]. by rewrite insert_insert_eq.
Qed.

(** Writing a batch is the union of the batch, its later records first,
    with what was there. *)
Lemma fold_put_union (rs : list (string * entry V)) es :
  fold_left put rs es = list_to_map (reverse rs) ∪ es.
Proof.
  revert es. induction rs as [|[k v] rs IH]; intros es; cbn [fold_left].
  - rewrite reverse_nil. cbn [list_to_map foldr]. by rewrite (left_id_L ∅ (∪)).
  - rewrite IH, reverse_cons, list_to_map_app. cbn [list_to_map foldr].
    rewrite <- (assoc_L (∪)). f_equal. unfold put; cbn.
    rewrite insert_union_singleton_l. by rewrite insert_empty.
Qed.

Lemma fold_put_twice (rs : list (string * entry V)) es :
  fold_left put rs (fold_left put rs es) = fold_left put rs es.
Proof.
  rewrite !fold_put_union. rewrite (assoc_L (∪)). by rewrite (idemp_L (∪)).
Qed.

(** A second [upsert_chunks] of the same batch without reset finds the
    store as the first one left it and leaves it so. *)
Lemma upsert_chunks_twice texts metas st :
  let st1 := (upsert_chunks embed_fn md5_hexdigest NAME texts metas false st).1 in
  (upsert_chunks embed_fn md5_hexdigest NAME texts metas false st1).1 = st1.
Proof.
  cbn zeta. rewrite (upsert_chunks_run _ _ _ st).
  destruct (records _ _ _ _) as [rs|] eqn:E; cbn [fst].
  - rewrite upsert_chunks_run, E. cbn [fst target].
    rewrite lookup_insert_eq. cbn [default from_option id settings entries].
    by rewrite fold_put_twice, insert_insert_eq.
  - rewrite upsert_chunks_run, E. cbn [fst target].
    rewrite lookup_insert_eq. cbn [default from_option id]. by rewrite insert_insert_eq.
Qed.

Abbreviation main' := (main rglob split_text embed_fn md5_hexdigest NAME).

(** What [main] does to the store: nothing, or one [upsert_chunks]. *)
Lemma main_store reset st :
  (main' reset st).1 = st
  ∨ ∃ texts metas,
      (∀ b st', (main' b st').1
                = (upsert_chunks embed_fn md5_hexdigest NAME texts metas b st').1).
Proof.
  unfold main. destruct (load_documents rglob) as [docs|e] eqn:El.
  - destruct docs as [|d docs]; [by left|].
    destruct (build_chunks split_text (d :: docs)) as [texts metas] eqn:Eb.
    destruct texts as [|t texts]; [left; unfold bind, lift; by rewrite Eb|].
    right. exists (t :: texts), metas. intros b st'.
    unfold bind at 1. unfold lift. rewrite Eb. unfold bind.
    by destruct (upsert_chunks _ _ _ _ _ _ _) as [? []].
  - by left.
Qed.

End pipeline.

(** C3, as the code has it. Over an empty source directory [main] stops
    at its first test, before [upsert_chunks] and so before the
    collection is dropped: with or without --reset the store is what it
    was, a populated collection keeps every entry, and the run prints
    that no documents were found. *)
Theorem empty_directory_leaves_store_untouched {V}
    (rglob : string → list file) (split_text : string → list string)
    (embed_fn : list string → list V) (md5_hexdigest : string → string)
    (NAME : string) (reset : bool) (st : gmap string (collection V)) :
  (∀ ext, rglob ext = []) →
  main rglob split_text embed_fn md5_hexdigest NAME reset st
  = (st, Ok "No documents found in data/raw. Add educational materials and retry.").
Proof.
  intros H. unfold main, bind, lift. by rewrite (load_documents_empty _ H).
Qed.

Lemma empty_directory_witness :
  main empty_directory whole embed1 digest edu_assistant true populated
  = (populated, Ok "No documents found in data/raw. Add educational materials and retry.").
Proof.
  apply empty_directory_leaves_store_untouched. intros ext. reflexivity.
Defined.

(** C3 as claimed fails: after a reset run over the empty directory the
    populated collection still holds its one entry. *)
Lemma reset_over_empty_directory_keeps_entries :
  count edu_assistant populated = Some 1
  ∧ count edu_assistant
      (main empty_directory whole embed1 digest edu_assistant true populated).1
    ≠ Some 0.
Proof. split; [reflexivity|]. vm_compute. discriminate. Qed.

(** C10. When the store has no collection of the name, asking for a
    reset raises nothing: [delete_collection] fails, the failure is
    dropped, and the fresh collection that results is the one a run
    without reset creates; [upsert_chunks] and [main] then do the same
    with either flag. *)
Theorem reset_without_collection_is_plain_ingestion {V}
    (rglob : string → list file) (split_text : string → list string)
    (embed_fn : list string → list V) (md5_hexdigest : string → string)
    (NAME : string) (st : gmap string (collection V)) :
  st !! NAME = None →
  (∃ e, delete_collection NAME st = (st, Raise e))
  ∧ ensure_collection NAME true st
    = (<[NAME := {| settings := None; entries := ∅ |}]> st, Ok NAME)
  ∧ ensure_collection NAME true st = ensure_collection NAME false st
  ∧ (∀ texts metas,
       upsert_chunks embed_fn md5_hexdigest NAME texts metas true st
       = upsert_chunks embed_fn md5_hexdigest NAME texts metas false st)
  ∧ main rglob split_text embed_fn md5_hexdigest NAME true st
    = main rglob split_text embed_fn md5_hexdigest NAME false st.
Proof.
  intros H.
  assert (ensure_collection NAME true st = ensure_collection NAME false st) as He.
  { by rewrite ensure_collection_reset, ensure_collection_keep, H. }
  assert (∀ texts metas,
       upsert_chunks embed_fn md5_hexdigest NAME texts metas true st
       = upsert_chunks embed_fn md5_hexdigest NAME texts metas false st) as Hu.
  { intros texts metas. unfold upsert_chunks, bind. by rewrite He. }
  split; [|split; [|split; [|split]]]; try done.
  - unfold delete_collection. rewrite H. by eexists.
  - apply ensure_collection_reset.
  - unfold main, bind. destruct (lift _ st) as [st' [docs|e]] eqn:E; [|done].
    injection E as <- _. destruct docs; [done|].
    destruct (build_chunks _ _) as [[|t texts] metas]; [done|].
    by rewrite Hu.
Qed.

Lemma reset_without_collection_witness :
  (∃ e, delete_collection edu_assistant (∅ : gmap string (collection Z)) = (∅, Raise e))
  ∧ ensure_collection edu_assistant true (∅ : gmap string (collection Z))
    = (<[edu_assistant := {| settings := None; entries := ∅ |}]> ∅, Ok edu_assistant)
  ∧ ensure_collection edu_assistant true (∅ : gmap string (collection Z))
    = ensure_collection edu_assistant false ∅
  ∧ (∀ texts metas,
       upsert_chunks embed1 digest edu_assistant texts metas true ∅
       = upsert_chunks embed1 digest edu_assistant texts metas false ∅)
  ∧ main one_file whole embed1 digest edu_assistant true ∅
    = main one_file whole embed1 digest edu_assistant false ∅.
Proof.
  apply (reset_without_collection_is_plain_ingestion one_file whole embed1 digest
           edu_assistant ∅).
  reflexivity.
Defined.

(** C4, as the code has it. Two runs of [main] without --reset over the
    same directory, the second finding under every pattern the same
    files in the same order as the first: the second leaves the store as
    the first left it, so the collection counts as many entries after
    the second run as after the first. *)
Theorem second_ingest_adds_nothing {V}
    (rglob rglob' : string → list file) (split_text : string → list string)
    (embed_fn : list string → list V) (md5_hexdigest : string → string)
    (NAME : string) (st : gmap string (collection V)) :
  (∀ ext, ext ∈ patterns → rglob ext = rglob' ext) →
  let st1 := (main rglob split_text embed_fn md5_hexdigest NAME false st).1 in
  let st2 := (main rglob' split_text embed_fn md5_hexdigest NAME false st1).1 in
  count NAME st2 = count NAME st1 ∧ st2 = st1.
Proof.
  intros Hext. cbn zeta.
  assert (∀ st', main rglob' split_text embed_fn md5_hexdigest NAME false st'
                 = main rglob split_text embed_fn md5_hexdigest NAME false st') as ->.
  { intros st'. unfold main. by rewrite (load_documents_ext _ _ Hext). }
  assert ((main rglob split_text embed_fn md5_hexdigest NAME false
             (main rglob split_text embed_fn md5_hexdigest NAME false st).1).1
          = (main rglob split_text embed_fn md5_hexdigest NAME false st).1) as H.
  { destruct (main_store rglob split_text embed_fn md5_hexdigest NAME false st)
      as [H|(texts & metas & H)].
    - rewrite !H. done.
    - rewrite !H. apply upsert_chunks_twice. }
  by rewrite H.
Qed.

Lemma second_ingest_witness :
  let st1 := (main one_file whole embed1 digest edu_assistant false populated).1 in
  let st2 := (main one_file whole embed1 digest edu_assistant false st1).1 in
  count edu_assistant st2 = count edu_assistant st1 ∧ st2 = st1.
Proof.
  apply (second_ingest_adds_nothing one_file one_file whole embed1 digest edu_assistant
           populated).
  intros ext _. reflexivity.
Defined.

(** One file, ingested twice: one entry after each run. *)
Example one_file_twice :
  let st1 := (main one_file whole embed1 digest edu_assistant false ∅).1 in
  let st2 := (main one_file whole embed1 digest edu_assistant false st1).1 in
  count edu_assistant st1 = Some 1 ∧ count edu_assistant st2 = Some 1.
Proof. by vm_compute. Qed.

(** C4 as claimed fails: the corpus is the same two unchanged files in
    both runs, without --reset, but the second run finds them in the
    other order. The place in the batch is part of the id, so the second
    run writes under new ids and the collection grows from two entries
    to four. *)
Lemma other_order_other_ids :
  let st1 := (main notes_then_intro whole embed1 digest edu_assistant false ∅).1 in
  let st2 := (main intro_then_notes whole embed1 digest edu_assistant false st1).1 in
  (∀ ext, notes_then_intro ext ≡ₚ intro_then_notes ext)
  ∧ count edu_assistant st1 = Some 2 ∧ count edu_assistant st2 = Some 4
  ∧ count edu_assistant st2 ≠ count edu_assistant st1.
Proof.
  split.
  - intros ext. unfold notes_then_intro, intro_then_notes.
    destruct (String.eqb ext "*.txt"); [apply Permutation_swap|done].
  - by vm_compute.
Qed.

(** *** The ids *)

Section ids.
Variable split_text : string → list string.
Variable md5_hexdigest : string → string.

(** The raw id reads the source and the chunk index of the metadata and
    nothing else. *)
Lemma raw_id_reads idx (m m' : gmap string pyval) :
  m !! "source" = m' !! "source" → m !! "chunk" = m' !! "chunk" →
  raw_id idx m = raw_id idx m'.
Proof. intros H1 H2. unfold raw_id. by rewrite H1, H2. Qed.

Lemma imap_Forall2 {A B C} (R : A → B → Prop) (f : nat → A → C) (g : nat → B → C) l k :
  Forall2 R l k → (∀ i x y, R x y → f i x = g i y) → imap f l = imap g k.
Proof.
  intros H. revert f g. induction H as [|x y l k Hxy _ IH]; intros f g Hfg; [done|].
  cbn. f_equal; [by apply Hfg|]. apply IH. intros i. apply Hfg.
Qed.

Lemma chunks_of_from (d : string * gmap string pyval) :
  Forall2 from (chunks_of split_text d).*2
    (imap (λ idx _, (str_val (default (PStr "unknown") (d.2 !! "source")), idx))
          (split_text d.1)).
Proof.
  unfold chunks_of. generalize (split_text d.1) as cs. intros cs.
  apply Forall2_same_length_lookup. split.
  - by rewrite length_fmap, !length_imap.
  - intros i m p. rewrite list_lookup_fmap, !list_lookup_imap.
    destruct (cs !! i) as [c|]; [|done]. cbn. intros [= <-] [= <-].
    split; cbn.
    + by rewrite lookup_insert_ne.
    + by rewrite lookup_insert_eq.
Qed.

Lemma build_chunks_from docs :
  Forall2 from (build_chunks split_text docs).2 (provenance split_text docs).
Proof.
  unfold build_chunks, provenance. cbn [snd].
  induction docs as [|d docs IH]; [constructor|].
  cbn [mbind list_bind]. rewrite fmap_app.
  apply Forall2_app; [apply chunks_of_from | apply IH].
Qed.

(** The chunks of a document are the pieces the splitter returns, in its
    order, each with its place in that order as chunk index. *)
Lemma build_chunks_one_document (d : string * gmap string pyval) :
  build_chunks split_text [d]
  = (split_text d.1,
     imap (λ idx _, <["chunk" := PInt (Z.of_nat idx)]> d.2) (split_text d.1)).
Proof.
  unfold build_chunks, chunks_of. cbn [mbind list_bind]. rewrite app_nil_r.
  generalize (split_text d.1) as cs. intros cs. f_equal.
  - apply list_eq. intros i. rewrite list_lookup_fmap, list_lookup_imap.
    by destruct (cs !! i).
  - apply list_eq. intros i. rewrite list_lookup_fmap, !list_lookup_imap.
    by destruct (cs !! i).
Qed.

(** The id of a chunk is the digest of its source, its index in its
    document and its place in the batch. *)
Lemma chunk_ids_of_batch docs :
  chunk_ids md5_hexdigest (build_chunks split_text docs).2
  = imap (λ i p, md5_hexdigest (p.1 +:+ "::" +:+ pretty (Z.of_nat p.2) +:+ "::" +:+ pretty i))
         (provenance split_text docs).
Proof.
  unfold chunk_ids. eapply imap_Forall2; [apply build_chunks_from|].
  intros i m p [H1 H2]. unfold raw_id. by rewrite H1, H2.
Qed.

End ids.

(** C5. Two runs that find the same files in the same order under each
    pattern assign the same ids, chunk by chunk; and the id a run gives
    to the chunk at place [i] of its batch is the digest of
    source::index::i, the source of the chunk's document and the index
    of the chunk in it. *)
Theorem same_input_same_chunk_ids
    (split_text : string → list string) (md5_hexdigest : string → string)
    (rglob rglob' : string → list file) :
  (∀ ext, ext ∈ patterns → rglob ext = rglob' ext) →
  run_ids rglob split_text md5_hexdigest = run_ids rglob' split_text md5_hexdigest
  ∧ ∀ docs, load_documents rglob = Ok docs →
      run_ids rglob' split_text md5_hexdigest
      = Ok (imap (λ i p, md5_hexdigest (p.1 +:+ "::" +:+ pretty (Z.of_nat p.2)
                                        +:+ "::" +:+ pretty i))
                 (provenance split_text docs)).
Proof.
  intros H. unfold run_ids. rewrite <- (load_documents_ext _ _ H). split; [done|].
  intros docs ->. cbn [rbind]. by rewrite chunk_ids_of_batch.
Qed.

Lemma same_input_same_chunk_ids_witness :
  run_ids one_file whole digest = run_ids one_file whole digest
  ∧ ∀ docs, load_documents one_file = Ok docs →
      run_ids one_file whole digest
      = Ok (imap (λ i p, digest (p.1 +:+ "::" +:+ pretty (Z.of_nat p.2)
                                 +:+ "::" +:+ pretty i))
                 (provenance whole docs)).
Proof.
  apply (same_input_same_chunk_ids whole digest one_file one_file).
  intros ext _. reflexivity.
Defined.

End IngestFacts.

(* ===================================================================== *)
(** ** ingest.py: the scan, the batch and the store *)
(* ===================================================================== *)

Module IngestStoreFacts.
Import PyFacts Chroma Ingest Sample IngestFacts IngestAux.

(** *** What a scan returns *)

Lemma returned_documents rglob docs :
  load_documents rglob = Ok docs →
  Forall (λ f, ∃ t, extract f = Ok t) (scanned rglob) ∧ docs = omap kept (scanned rglob).
Proof.
  intros H.
  destruct (first_failure (scanned rglob)) as [Hall|(fs1 & g & fs2 & e & Heq & H1 & H2)].
  - split; [done|]. rewrite (load_documents_readable _ Hall) in H. by injection H.
  - unfold load_documents in H. rewrite load_patterns_scan in H.
    fold (scanned rglob) in H. rewrite Heq in H.
    by rewrite (load_files_raises _ _ _ _ _ H1 H2) in H.
Qed.

(** X1. When [load_documents] returns, every file of the scan was
    extracted without an exception, and the documents returned are, in
    scan order, those of the files whose text is not blank: a pair of a
    text and a metadata dict is returned exactly when the text is the
    text of a scanned file, is not white space only, and the dict is the
    source and file name of that file. *)
Theorem loaded_documents_are_the_files_with_text rglob docs :
  load_documents rglob = Ok docs →
  Forall (λ f, ∃ t, extract f = Ok t) (scanned rglob)
  ∧ docs = omap kept (scanned rglob)
  ∧ ∀ t m, (t, m) ∈ docs ↔
      strip t ≠ "" ∧ ∃ f, f ∈ scanned rglob ∧ extract f = Ok t ∧ m = meta_of f.
Proof.
  intros H. apply returned_documents in H as [Hall ->]. split; [done|]. split; [done|].
  intros t m. rewrite list_elem_of_omap. unfold kept, doc_of. split.
  - intros (f & Hf & Hk). destruct (extract f) as [t'|] eqn:E; [|done].
    destruct (String.eqb_spec (strip t') ""); [done|]. injection Hk as <- <-. eauto.
  - intros (Ht & f & Hf & E & ->). exists f. split; [done|]. rewrite E.
    by destruct (String.eqb_spec (strip t) "").
Qed.

Lemma loaded_documents_witness :
  Forall (λ f, ∃ t, extract f = Ok t) (scanned one_file)
  ∧ [notes_doc] = omap kept (scanned one_file)
  ∧ ∀ t m, (t, m) ∈ [notes_doc] ↔
      strip t ≠ "" ∧ ∃ f, f ∈ scanned one_file ∧ extract f = Ok t ∧ m = meta_of f.
Proof.
  apply (loaded_documents_are_the_files_with_text one_file [notes_doc]).
  vm_compute. reflexivity.
Defined.

(** *** A PDF without text *)

Lemma lstrip_spaces s : all_space s = true → lstrip s = "".
Proof.
  unfold lstrip. induction s as [|c s IH]; [done|]. cbn.
  intros [Hc Hs]%andb_true_iff. rewrite Hc. by apply IH.
Qed.

Lemma all_space_app a b : all_space (a +:+ b) = all_space a && all_space b.
Proof.
  induction a as [|c a IH]; [done|]. rewrite append_cons. cbn.
  by rewrite IH, andb_assoc.
Qed.

Lemma all_space_join parts :
  Forall (λ t, all_space t = true) parts → all_space (join nl parts) = true.
Proof.
  induction 1 as [|t parts Ht _ IH]; [done|].
  destruct parts as [|u parts]; [done|].
  rewrite join_cons2, !all_space_app, Ht, IH. done.
Qed.

Lemma strip_spaces s : all_space s = true → strip s = "".
Proof. intros H. unfold strip. by rewrite lstrip_spaces. Qed.

Lemma page_texts_empty pages :
  Forall empty_page pages →
  ∃ parts, page_texts pages = Ok parts ∧ Forall (λ t, all_space t = true) parts.
Proof.
  induction 1 as [|p pages Hp _ (parts & Hparts & IH)]; [by exists []|].
  destruct Hp as [->|(t & -> & Ht)]; cbn; rewrite Hparts; cbn;
    eexists; split; try done; by constructor.
Qed.

(** X2. A PDF (whatever the case of its suffix) all of whose pages give
    no text, or ASCII white space only, is read without an exception
    and contributes no document: the scan goes on without it. *)
Theorem pdf_without_text_is_skipped f pages :
  lower (suffix f) = ".pdf" → pdf_pages f = Ok pages → Forall empty_page pages →
  (∃ t, extract f = Ok t) ∧ kept f = None
  ∧ ∀ fs docs, load_files (f :: fs) docs = load_files fs docs.
Proof.
  intros Hs Hp Hall. destruct (page_texts_empty pages Hall) as (parts & Hparts & Hsp).
  assert (extract f = Ok (join nl parts)) as He.
  { unfold extract. rewrite Hs. cbn. unfold read_pdf. rewrite Hp. cbn. by rewrite Hparts. }
  assert (strip (join nl parts) = "") as Hb by by apply strip_spaces, all_space_join.
  split; [by eexists|]. split.
  - unfold kept, doc_of. by rewrite He, Hb.
  - intros fs docs. cbn [load_files]. rewrite He. cbn [rbind]. by rewrite Hb.
Qed.

Lemma pdf_without_text_witness :
  (∃ t, extract blank_pdf = Ok t) ∧ kept blank_pdf = None
  ∧ ∀ fs docs, load_files (blank_pdf :: fs) docs = load_files fs docs.
Proof.
  apply (pdf_without_text_is_skipped blank_pdf [Ok None; Ok (Some ("  " +:+ nl))]).
  - vm_compute. reflexivity.
  - reflexivity.
  - constructor; [by left|]. constructor; [|constructor].
    right. eexists. split; [reflexivity|]. vm_compute. reflexivity.
Defined.

(** *** The batch *)

Section batch.
Variable split_text : string → list string.

Lemma build_chunks_lengths (docs : list (string * gmap string pyval)) :
  length (build_chunks split_text docs).2 = length (build_chunks split_text docs).1.
Proof. unfold build_chunks. cbn [fst snd]. by rewrite !length_fmap. Qed.

Lemma chunks_of_lookup (d : string * gmap string pyval) i c m :
  chunks_of split_text d !! i = Some (c, m) →
  split_text d.1 !! i = Some c ∧ m = <["chunk" := PInt (Z.of_nat i)]> d.2.
Proof.
  unfold chunks_of. rewrite list_lookup_imap.
  destruct (split_text d.1 !! i); [|done]. by intros [= <- <-].
Qed.

(** X3. The text and the metadata at one place of the batch belong
    together: the text is a piece of some document, the metadata holds
    under [chunk] the index of that piece in its document, and every
    other key is as in the metadata of the document. *)
Theorem chunk_metadata_is_document_metadata docs i t m :
  (build_chunks split_text docs).1 !! i = Some t →
  (build_chunks split_text docs).2 !! i = Some m →
  ∃ d idx, d ∈ docs ∧ split_text d.1 !! idx = Some t
           ∧ m !! "chunk" = Some (PInt (Z.of_nat idx))
           ∧ ∀ k, k ≠ "chunk" → m !! k = d.2 !! k.
Proof.
  unfold build_chunks. cbn [fst snd]. rewrite !list_lookup_fmap.
  destruct ((docs ≫= chunks_of split_text) !! i) as [[c m']|] eqn:E; [|done].
  cbn. intros [= <-] [= <-].
  assert ((c, m') ∈ docs ≫= chunks_of split_text) as Hin
    by (apply list_elem_of_lookup; eauto).
  apply list_elem_of_bind in Hin as (d & Hin & Hd).
  apply list_elem_of_lookup in Hin as [idx Hidx].
  apply chunks_of_lookup in Hidx as [Hc ->].
  exists d, idx. repeat split; [done|done|by rewrite lookup_insert_eq|].
  intros k Hk. by rewrite lookup_insert_ne.
Qed.

End batch.

Lemma chunk_metadata_witness :
  ∃ d idx, d ∈ [notes_doc]
    ∧ whole d.1 !! idx = Some "The mitochondria is the powerhouse of the cell."
    ∧ (<["chunk" := PInt 0]> (meta_of notes_txt) : gmap string pyval) !! "chunk"
      = Some (PInt (Z.of_nat idx))
    ∧ ∀ k, k ≠ "chunk" →
        (<["chunk" := PInt 0]> (meta_of notes_txt) : gmap string pyval) !! k = d.2 !! k.
Proof.
  apply (chunk_metadata_is_document_metadata whole [notes_doc] 0).
  - reflexivity.
  - reflexivity.
Defined.

(** *** Ids within a batch *)

Lemma no_colon_pretty_N_go x s : no_colon s = true → no_colon (pretty_N_go x s) = true.
Proof.
  revert s. induction (N.lt_wf_0 x) as [x _ IH]; intros s Hs.
  assert (x = 0 ∨ 0 < x)%N as [->|?] by lia.
  - by rewrite pretty_N_go_0.
  - rewrite pretty_N_go_step by done. apply IH.
    { by apply N.div_lt. }
    cbn. rewrite Hs. unfold pretty_N_char. by repeat case_match.
Qed.

Lemma no_colon_pretty_nat (n : nat) : no_colon (pretty n) = true.
Proof.
  unfold pretty, pretty_nat, pretty, pretty_N. case_decide; [done|].
  by apply no_colon_pretty_N_go.
Qed.

Lemma no_colon_app a b : no_colon (a +:+ b) = no_colon a && no_colon b.
Proof.
  induction a as [|c a IH]; [done|]. rewrite append_cons. cbn.
  by rewrite IH, andb_assoc.
Qed.

Lemma last_field_app x d : no_colon d = true → last_field (x +:+ String COLON d) = d.
Proof.
  intros Hd. induction x as [|c x IH].
  - rewrite append_nil_l. cbn. by rewrite Hd.
  - rewrite append_cons. cbn [last_field].
    rewrite no_colon_app. cbn [no_colon]. rewrite Ascii.eqb_refl. cbn.
    by rewrite andb_false_r.
Qed.

Lemma raw_id_last_field idx (m : gmap string pyval) :
  last_field (raw_id idx m) = pretty idx.
Proof.
  unfold raw_id.
  set (a := str_val _). set (b := str_val _).
  replace (a +:+ "::" +:+ b +:+ "::" +:+ pretty idx)
    with ((a +:+ "::" +:+ b +:+ ":") +:+ String COLON (pretty idx)).
  - apply last_field_app, no_colon_pretty_nat.
  - by rewrite !append_assoc.
Qed.

Lemma raw_id_place i j (m m' : gmap string pyval) : raw_id i m = raw_id j m' → i = j.
Proof.
  intros H. apply (f_equal last_field) in H. rewrite !raw_id_last_field in H.
  by apply (inj pretty).
Qed.

Lemma raw_ids_distinct (metas : list (gmap string pyval)) : NoDup (imap raw_id metas).
Proof.
  apply NoDup_alt. intros i j x. rewrite !list_lookup_imap.
  destruct (metas !! i) as [m|]; [|done]. destruct (metas !! j) as [m'|]; [|done].
  cbn. intros [= <-] [= H]. symmetry. by apply raw_id_place in H.
Qed.

Lemma digest_inj a b : digest a = digest b → a = b.
Proof. unfold digest. intros H. by injection H. Qed.

(** X4. The raw ids of a batch are pairwise distinct, whatever the
    metadata says (two chunks with the same source and chunk index
    included): a raw id ends in the place of its chunk in the batch. So
    a batch gets one id per chunk, and no id twice as long as the digest
    does not collide on the raw ids of that batch. *)
Theorem ids_of_a_batch_are_distinct (md5 : string → string) metas :
  (∀ i j m m', metas !! i = Some m → metas !! j = Some m' →
     md5 (raw_id i m) = md5 (raw_id j m') → raw_id i m = raw_id j m') →
  NoDup (imap raw_id metas)
  ∧ NoDup (chunk_ids md5 metas)
  ∧ length (chunk_ids md5 metas) = length metas.
Proof.
  intros Hinj. split; [apply raw_ids_distinct|]. split.
  - apply NoDup_alt. intros i j id. unfold chunk_ids. rewrite !list_lookup_imap.
    destruct (metas !! i) as [m|] eqn:Ei; [|done].
    destruct (metas !! j) as [m'|] eqn:Ej; [|done].
    cbn. intros [= <-] [= H]. symmetry in H.
    by apply (Hinj i j m m' Ei Ej), raw_id_place in H.
  - unfold chunk_ids. apply length_imap.
Qed.

Lemma ids_of_a_batch_witness :
  NoDup (imap raw_id (notes_metas ++ notes_metas))
  ∧ NoDup (chunk_ids digest (notes_metas ++ notes_metas))
  ∧ length (chunk_ids digest (notes_metas ++ notes_metas)) = length (notes_metas ++ notes_metas).
Proof.
  apply (ids_of_a_batch_are_distinct digest (notes_metas ++ notes_metas)).
  intros i j m m' _ _. apply digest_inj.
Defined.

(** *** What a batch leaves in the collection *)

Section store.
Context {V : Type}.
Variable rglob : string → list file.
Variable split_text : string → list string.
Variable embed_fn : list string → list V.
Variable md5_hexdigest : string → string.
Variable NAME : string.

Implicit Types st : gmap string (collection V).

Lemma records_spec ids ds ms (es : list V) rs :
  records ids ds ms es = Some rs →
  rs.*1 = ids
  ∧ length ds = length ids ∧ length es = length ids
  ∧ ∀ i d m e, ds !! i = Some d → ms !! i = Some m → es !! i = Some e →
      ∃ id, ids !! i = Some id
            ∧ rs !! i = Some (id, {| document := d; metadata := m; embedding := e |}).
Proof.
  revert ds ms es rs. induction ids as [|id ids IH]; intros [|d ds] [|m ms] [|e es] rs; try done.
  - intros [= <-]. by repeat split.
  - cbn. destruct (records ids ds ms es) as [rs'|] eqn:E; [|done]. intros [= <-].
    destruct (IH _ _ _ _ E) as (H1 & H2 & H2' & H3). cbn. rewrite H1, H2, H2'.
    repeat split.
    intros [|i] d' m' e'; cbn; [intros [= <-] [= <-] [= <-]; eauto|]. apply H3.
Qed.

Lemma records_total ids ds ms (es : list V) :
  length ds = length ids → length ms = length ids → length es = length ids →
  is_Some (records ids ds ms es).
Proof.
  revert ds ms es. induction ids as [|id ids IH]; intros [|d ds] [|m ms] [|e es]; try done.
  cbn. intros [= H1] [= H2] [= H3]. destruct (IH ds ms es H1 H2 H3) as [rs ->]. by eexists.
Qed.

Lemma fold_put_lookup_other (rs : list (string * entry V)) es id :
  id ∉ rs.*1 → fold_left put rs es !! id = es !! id.
Proof.
  intros H. rewrite fold_put_union. apply lookup_union_r.
  apply not_elem_of_list_to_map_1. by rewrite fmap_reverse, elem_of_reverse.
Qed.

Lemma fold_put_lookup (rs : list (string * entry V)) es i id e :
  NoDup rs.*1 → rs !! i = Some (id, e) → fold_left put rs es !! id = Some e.
Proof.
  intros Hnd Hi. rewrite fold_put_union. apply lookup_union_Some_l.
  apply elem_of_list_to_map_1.
  - by rewrite fmap_reverse, reverse_Permutation.
  - apply elem_of_reverse, list_elem_of_lookup. eauto.
Qed.

Lemma fold_put_size (rs : list (string * entry V)) :
  NoDup rs.*1 → size (fold_left put rs ∅) = length rs.
Proof.
  intros Hnd. rewrite fold_put_union, (right_id_L ∅ (∪)).
  rewrite map_size_list_to_map, length_reverse; [done|].
  by rewrite fmap_reverse, reverse_Permutation.
Qed.

Lemma entry_at_target reset st id :
  entries (target NAME reset st) !! id = if reset then None else entry_at NAME st id.
Proof.
  unfold target, entry_at. destruct reset; [done|]. by destruct (st !! NAME).
Qed.

(** X5. An upsert of a batch touches the ids of the batch only: under
    any other id the collection holds afterwards what it held before
    when the run does not reset, and nothing when it resets. *)
Theorem entries_outside_the_batch texts metas reset st st' id :
  upsert_chunks embed_fn md5_hexdigest NAME texts metas reset st = (st', Ok tt) →
  id ∉ chunk_ids md5_hexdigest metas →
  entry_at NAME st' id = if reset then None else entry_at NAME st id.
Proof.
  rewrite upsert_chunks_run. destruct (records _ _ _ _) as [rs|] eqn:E; [|done].
  intros [= <-] Hid. destruct (records_spec _ _ _ _ _ E) as (H1 & _).
  unfold entry_at at 1. rewrite lookup_insert_eq. cbn.
  rewrite fold_put_lookup_other by by rewrite H1. apply entry_at_target.
Qed.

(** X6. What a batch stores can be read back: when the ids of the batch
    are distinct, the collection holds afterwards, under the id of the
    place [i], the text, the metadata and the embedding of that place. *)
Theorem batch_entries_can_be_read_back texts metas reset st st' i t m :
  upsert_chunks embed_fn md5_hexdigest NAME texts metas reset st = (st', Ok tt) →
  NoDup (chunk_ids md5_hexdigest metas) →
  texts !! i = Some t → metas !! i = Some m →
  ∃ e, embed_fn texts !! i = Some e
       ∧ entry_at NAME st' (md5_hexdigest (raw_id i m))
         = Some {| document := t; metadata := m; embedding := e |}.
Proof.
  rewrite upsert_chunks_run. destruct (records _ _ _ _) as [rs|] eqn:E; [|done].
  intros [= <-] Hnd Ht Hm. destruct (records_spec _ _ _ _ _ E) as (H1 & H2 & H2' & H3).
  assert (is_Some (embed_fn texts !! i)) as [e He].
  { apply lookup_lt_is_Some. rewrite H2', <- H2. by eapply lookup_lt_Some. }
  exists e. split; [done|].
  destruct (H3 i t m e Ht Hm He) as (id & Hid & Hrs).
  unfold chunk_ids in Hid. rewrite list_lookup_imap, Hm in Hid. injection Hid as <-.
  unfold entry_at. rewrite lookup_insert_eq. cbn.
  eapply fold_put_lookup; [by rewrite H1|done].
Qed.

(** X8. A run of [main] that changes the store has loaded documents
    and got at least one chunk from the splitter: a scan that raises,
    finds no document or yields no chunk leaves the store as it was,
    with or without [--reset]. *)
Theorem main_writes_only_when_there_are_chunks reset st st' r :
  main rglob split_text embed_fn md5_hexdigest NAME reset st = (st', r) →
  st' ≠ st →
  ∃ docs, load_documents rglob = Ok docs
          ∧ (build_chunks split_text docs).1 ≠ [].
Proof.
  unfold main, bind, lift. destruct (load_documents rglob) as [docs|e]; [|by intros [= <- _]].
  destruct docs as [|d docs]; [by intros [= <- _]|].
  destruct (build_chunks split_text (d :: docs)) as [[|t texts] metas] eqn:E;
    [by intros [= <- _]|].
  intros _ _. exists (d :: docs). by rewrite E.
Qed.

(** X9. After a run with [--reset] that produced chunks, the collection
    holds exactly as many entries as the run says it ingested, whatever
    the store held before; this needs the ids of the batch to be
    distinct and an embedding function that gives one embedding per
    text. *)
Theorem reset_run_stores_what_it_prints st docs :
  NoDup (chunk_ids md5_hexdigest (build_chunks split_text docs).2) →
  (∀ texts, length (embed_fn texts) = length texts) →
  load_documents rglob = Ok docs →
  (build_chunks split_text docs).1 ≠ [] →
  let n := length (build_chunks split_text docs).1 in
  ∃ st', main rglob split_text embed_fn md5_hexdigest NAME true st
         = (st', Ok ("Ingested " +:+ pretty n +:+
                     " educational chunks into collection '" +:+ NAME +:+ "'."))
       ∧ count NAME st' = Some n.
Proof.
  intros Hnd Hlen Hload Hne n. subst n.
  pose proof (build_chunks_lengths split_text docs) as Hl.
  unfold main, bind, lift. rewrite Hload.
  destruct docs as [|d docs]; [done|].
  destruct (build_chunks split_text (d :: docs)) as [texts metas] eqn:E.
  cbn [fst snd] in *. destruct texts as [|t texts]; [done|].
  rewrite upsert_chunks_run.
  destruct (records_total (chunk_ids md5_hexdigest metas) (t :: texts) metas
              (embed_fn (t :: texts))) as [rs Hrs].
  { unfold chunk_ids. by rewrite length_imap. }
  { unfold chunk_ids. by rewrite length_imap. }
  { unfold chunk_ids. by rewrite length_imap, Hlen. }
  rewrite Hrs. eexists. split; [reflexivity|].
  unfold count. rewrite lookup_insert_eq. cbn.
  destruct (records_spec _ _ _ _ _ Hrs) as (H1 & H2 & _).
  rewrite fold_put_size.
  - by rewrite <- (length_fmap fst), H1, <- H2.
  - by rewrite H1.
Qed.

End store.

Lemma entries_outside_the_batch_witness :
  entry_at edu_assistant
    (upsert_chunks embed1 digest edu_assistant notes_texts notes_metas false populated).1
    "0f3a"
  = entry_at edu_assistant populated "0f3a".
Proof.
  apply (entries_outside_the_batch embed1 digest edu_assistant notes_texts notes_metas
           false populated).
  - vm_compute. reflexivity.
  - apply (bool_decide_unpack _). vm_compute. exact I.
Defined.

Lemma batch_entries_witness :
  ∃ e, embed1 notes_texts !! 0 = Some e
     ∧ entry_at edu_assistant
         (upsert_chunks embed1 digest edu_assistant notes_texts notes_metas true populated).1
         (digest (raw_id 0 (<["chunk" := PInt 0]> (meta_of notes_txt))))
       = Some {| document := "The mitochondria is the powerhouse of the cell.";
                 metadata := <["chunk" := PInt 0]> (meta_of notes_txt);
                 embedding := e |}.
Proof.
  apply (batch_entries_can_be_read_back embed1 digest edu_assistant notes_texts notes_metas
           true populated).
  - vm_compute. reflexivity.
  - apply (bool_decide_unpack _). vm_compute. exact I.
  - reflexivity.
  - reflexivity.
Defined.

Lemma main_writes_witness :
  ∃ docs, load_documents one_file = Ok docs ∧ (build_chunks whole docs).1 ≠ [].
Proof.
  apply (main_writes_only_when_there_are_chunks one_file whole embed1 digest edu_assistant
           false ∅
           (main one_file whole embed1 digest edu_assistant false ∅).1
           (main one_file whole embed1 digest edu_assistant false ∅).2).
  - apply surjective_pairing.
  - intros H. apply (f_equal (λ st, count edu_assistant st)) in H.
    vm_compute in H. discriminate H.
Defined.

Lemma reset_run_witness :
  ∃ st', main one_file whole embed1 digest edu_assistant true populated
         = (st', Ok ("Ingested " +:+ pretty 1 +:+
                     " educational chunks into collection '" +:+ edu_assistant +:+ "'."))
       ∧ count edu_assistant st' = Some 1.
Proof.
  apply (reset_run_stores_what_it_prints one_file whole embed1 digest edu_assistant
           populated [notes_doc]).
  - apply (bool_decide_unpack _). vm_compute. exact I.
  - intros texts. unfold embed1. apply length_fmap.
  - vm_compute. reflexivity.
  - vm_compute. discriminate.
Defined.

End IngestStoreFacts.

(* ===================================================================== *)
(** ** ingest.py: the client calls of ensure_collection *)
(* ===================================================================== *)

Module IngestClientFacts.
Import PyFacts RagInit IngestClient Sample.

(** The two attempts to open the collection. *)
Lemma ensure_collection_opening client w :
  try_except (call client (GetOrCreate None))
    (λ _, call client (GetOrCreate (Some cosine))) w
  = match client (length (client_calls w)) (GetOrCreate None) with
    | Ok _ =>
        ({| client_calls := client_calls w ++ [GetOrCreate None];
            warnings := warnings w |}, Ok tt)
    | Raise _ =>
        ({| client_calls := client_calls w ++ [GetOrCreate None; GetOrCreate (Some cosine)];
            warnings := warnings w |},
         client (S (length (client_calls w))) (GetOrCreate (Some cosine)))
    end.
Proof.
  unfold try_except, call. cbn.
  destruct (client (length (client_calls w)) (GetOrCreate None)) as [[]|e]; [done|].
  rewrite length_app, <- app_assoc. cbn. by rewrite Nat.add_1_r.
Qed.

(** X7. [ensure_collection] asks the client to delete the collection
    exactly when [reset] is set, and a failure of that call is dropped.
    It then opens the collection with the default settings and, only
    when that call raises, once more with the cosine metadata; what this
    last call gives, a collection or an exception, is what
    [ensure_collection] gives. It makes no other call. *)
Theorem ensure_collection_calls client reset w w' r :
  ensure_collection client reset w = (w', r) →
  let dropped := if reset then [Delete] else [] in
  let n := length (client_calls w ++ dropped) in
  (client n (GetOrCreate None) = Ok tt →
     client_calls w' = client_calls w ++ dropped ++ [GetOrCreate None] ∧ r = Ok tt)
  ∧ (∀ e, client n (GetOrCreate None) = Raise e →
       client_calls w' = client_calls w ++ dropped
                         ++ [GetOrCreate None; GetOrCreate (Some cosine)]
       ∧ r = client (S n) (GetOrCreate (Some cosine)))
  ∧ warnings w' = warnings w.
Proof.
  intros H dropped n.
  assert (∃ w1, ensure_collection client reset w
                = try_except (call client (GetOrCreate None))
                    (λ _, call client (GetOrCreate (Some cosine))) w1
              ∧ client_calls w1 = client_calls w ++ dropped
              ∧ warnings w1 = warnings w) as (w1 & Hrun & Hc & Hw).
  { unfold ensure_collection, bind. destruct reset; cbv beta iota.
    - unfold try_except at 1, call at 1, ret.
      destruct (client (length (client_calls w)) Delete) as [[]|e0]; by eexists.
    - unfold ret. exists w. by rewrite app_nil_r. }
  rewrite Hrun, ensure_collection_opening, Hc in H. fold n in H.
  destruct (client n (GetOrCreate None)) as [[]|e1]; injection H as <- <-; cbn;
    rewrite ?Hc, ?Hw, <- ?app_assoc; split_and!; try done.
Qed.

Lemma ensure_collection_calls_witness :
  let w := {| client_calls := []; warnings := [] |} in
  let w' := (ensure_collection client_refuses true w).1 in
  let r := (ensure_collection client_refuses true w).2 in
  (client_refuses 1 (GetOrCreate None) = Ok tt →
     client_calls w' = client_calls w ++ [Delete] ++ [GetOrCreate None] ∧ r = Ok tt)
  ∧ (∀ e, client_refuses 1 (GetOrCreate None) = Raise e →
       client_calls w' = client_calls w ++ [Delete]
                         ++ [GetOrCreate None; GetOrCreate (Some cosine)]
       ∧ r = client_refuses 2 (GetOrCreate (Some cosine)))
  ∧ warnings w' = warnings w.
Proof.
  apply (ensure_collection_calls client_refuses true {| client_calls := []; warnings := [] |}).
  apply surjective_pairing.
Defined.

End IngestClientFacts.

(* ===================================================================== *)
(** ** rag_service.py: retrieval and the bounds of generation *)
(* ===================================================================== *)

Module RetrievalFacts.
Import PyFacts RagService Sample RagServiceFacts.

Lemma zip3_lookup {A B C} (a : list A) (b : list B) (c : list C) i x y z :
  zip3 a b c !! i = Some (x, y, z) ↔ a !! i = Some x ∧ b !! i = Some y ∧ c !! i = Some z.
Proof.
  revert b c i. induction a as [|x' a IH]; intros [|y' b] [|z' c] [|i]; cbn;
    try (split; [done|by intros (?&?&?)]).
  - split; [by intros [= -> -> ->]|by intros ([= ->]&[= ->]&[= ->])].
  - apply IH.
Qed.

Lemma zip3_length {A B C} (a : list A) (b : list B) (c : list C) :
  length (zip3 a b c) = length a `min` (length b `min` length c).
Proof.
  revert b c. induction a as [|x a IH]; intros [|y b] [|z c]; cbn; try done.
  by rewrite IH.
Qed.

Lemma zip3_nil {A B C} (a : list A) (b : list B) (c : list C) :
  a = [] ∨ b = [] ∨ c = [] → zip3 a b c = [].
Proof. intros [H|[H|H]]; subst; [done|by destruct a|by destruct a, b]. Qed.

Section service.
Context {V D : Type}.
Variable globals : list string.
Variable embed_fn : list string → list V.
Variable collection_query : nat → V → nat → result (query_result D).
Variable ollama_chat : nat → string → string → result string.
Variable TOP_K : nat.

Lemma retrieve_ok q k w emb res :
  first (embed_fn [q]) = Ok emb →
  collection_query (query_calls w) emb k = Ok res →
  retrieve globals embed_fn collection_query q k w =
  (count_query w,
   rbind (first (default [[]] (documents res))) (λ ds,
   rbind (first (default [[]] (metadatas res))) (λ ms,
   rbind (first (default [[]] (distances res))) (λ xs, Ok (zip3 ds ms xs))))).
Proof.
  intros He Hq. unfold retrieve. rewrite He. cbn [lift bind].
  erewrite bind_ok; last first.
  { apply try_except_ok. unfold query. by rewrite Hq. }
  unfold bind, lift, ret.
  destruct (first (default [[]] (documents res))); [|done].
  destruct (first (default [[]] (metadatas res))); [|done].
  by destruct (first (default [[]] (distances res))).
Qed.

(** X10. [retrieve] asks the index once and returns the hits of the
    first hit list in the order of the index: hit [i] is the document,
    the metadata and the distance the index gave at place [i], and
    there are as many hits as the shortest of the three lists has. *)
Theorem retrieve_keeps_the_order_of_the_index q k w emb res ds ms xs dss mss xss :
  first (embed_fn [q]) = Ok emb →
  collection_query (query_calls w) emb k = Ok res →
  documents res = Some (ds :: dss) →
  metadatas res = Some (ms :: mss) →
  distances res = Some (xs :: xss) →
  ∃ ps, retrieve globals embed_fn collection_query q k w = (count_query w, Ok ps)
    ∧ length ps = length ds `min` (length ms `min` length xs)
    ∧ ∀ i d m x, ps !! i = Some (d, m, x)
                 ↔ ds !! i = Some d ∧ ms !! i = Some m ∧ xs !! i = Some x.
Proof.
  intros He Hq H1 H2 H3. exists (zip3 ds ms xs).
  rewrite (retrieve_ok _ _ _ _ _ He Hq), H1, H2, H3. cbn.
  split; [done|]. split; [apply zip3_length|]. intros. apply zip3_lookup.
Qed.

(** X11. When the result of the index lacks one of the keys
    [documents], [metadatas], [distances] (and the keys it has hold a
    hit list), [retrieve] returns no passage at all, without an error:
    the hits under the other keys are dropped. *)
Theorem retrieve_without_a_key_finds_nothing q k w emb res ds ms xs :
  first (embed_fn [q]) = Ok emb →
  collection_query (query_calls w) emb k = Ok res →
  documents res = None ∨ metadatas res = None ∨ distances res = None →
  first (default [[]] (documents res)) = Ok ds →
  first (default [[]] (metadatas res)) = Ok ms →
  first (default [[]] (distances res)) = Ok xs →
  retrieve globals embed_fn collection_query q k w = (count_query w, Ok []).
Proof.
  intros He Hq Hnone H1 H2 H3. rewrite (retrieve_ok _ _ _ _ _ He Hq), H1, H2, H3.
  cbn. rewrite zip3_nil; [done|].
  destruct Hnone as [E|[E|E]]; rewrite E in *; cbn in *; simplify_eq; auto.
Qed.

(** X12. When the index answers with an empty list under [documents]
    (no hit list, not an empty hit list), [retrieve] ends in the
    IndexError of [[0]]; nothing in [retrieve] catches it. *)
Theorem retrieve_with_an_empty_result_list q k w emb res :
  first (embed_fn [q]) = Ok emb →
  collection_query (query_calls w) emb k = Ok res →
  documents res = Some [] →
  retrieve globals embed_fn collection_query q k w
  = (count_query w, Raise (IndexError "list index out of range")).
Proof.
  intros He Hq H1. by rewrite (retrieve_ok _ _ _ _ _ He Hq), H1.
Qed.

(** X13. An exception of the query that is not a RuntimeError about the
    header file leaves [retrieve] as it is, after the one call, and
    nothing is logged or retried. *)
Theorem retrieve_passes_other_exceptions_on q k w emb e :
  first (embed_fn [q]) = Ok emb →
  collection_query (query_calls w) emb k = Raise e →
  is_RuntimeError e && contains "Cannot open header file" (str_exn e) = false →
  retrieve globals embed_fn collection_query q k w = (count_query w, Raise e).
Proof.
  intros He Hq Hc. unfold retrieve. rewrite He. cbn [lift bind].
  apply bind_raise. erewrite try_except_raise by (unfold query; by rewrite Hq).
  destruct (is_RuntimeError e); [|done].
  by destruct (contains _ _).
Qed.


(** The turns of the loop: calls and waits. *)
Lemma attempts_bounded rng s u (docs : list (string * gmap string pyval * D)) last w w' r :
  attempts globals ollama_chat rng s u docs last w = (w', r) →
  chat_calls w' ≤ chat_calls w + length rng
  ∧ query_calls w' = query_calls w
  ∧ ∃ waits, sleeps w' = sleeps w ++ waits
             ∧ waits `prefix_of` ((λ a, 2 + a * 3)%Z <$> filter (λ a, a < 2)%Z rng).
Proof.
  revert w. induction rng as [|a rng IH]; intros w.
  - cbn. intros [= <- _]. split; [lia|]. split; [done|]. exists []. by rewrite app_nil_r.
  - destruct (ollama_chat (chat_calls w) s u) as [answer|e] eqn:E.
    + rewrite (attempt_answers _ _ _ _ _ _ _ _ _ _ E). intros [= <- _]. cbn.
      split; [lia|]. split; [done|]. exists []. rewrite app_nil_r. split; [done|].
      apply prefix_nil.
    + rewrite (attempt_raises _ _ _ _ _ _ _ _ _ _ E).
      assert (∀ x : result (string * list (string * gmap string pyval * D)),
                (count_chat w, x) = (w', r) →
                chat_calls w' ≤ chat_calls w + length (a :: rng)
                ∧ query_calls w' = query_calls w
                ∧ ∃ waits, sleeps w' = sleeps w ++ waits
                  ∧ waits `prefix_of`
                      ((λ a, 2 + a * 3)%Z <$> filter (λ a, a < 2)%Z (a :: rng))) as Hstop.
      { intros x [= <- _]. cbn. split; [lia|]. split; [done|]. exists [].
        rewrite app_nil_r. split; [done|]. apply prefix_nil. }
      destruct e; try apply Hstop.
      destruct (status_code =? 503)%Z; [|apply Hstop].
      destruct (Z.ltb_spec a 2) as [Ha|Ha]; [|apply Hstop].
      unfold bind at 1.
      destruct (logging_say globals _ (count_chat w)) as [w1 [?|e1]] eqn:El;
        pose proof (keeps_logging_say _ _ _ _ _ El) as Hk;
        unfold generation in Hk; cbn in Hk; injection Hk as Hc1 Hs1;
        assert (query_calls w1 = query_calls w) as Hq1
          by (clear -El; unfold logging_say, name, bind, ret, raise in El;
              case_bool_decide; by injection El as <- _).
      2:{ intros [= <- _]. rewrite Hc1, Hs1, Hq1. cbn. split; [lia|]. split; [done|].
          exists []. rewrite app_nil_r. split; [done|]. apply prefix_nil. }
      unfold bind at 1. unfold time_sleep at 1, bind at 1, name at 1.
      case_bool_decide; cbn [ret raise].
      2:{ intros [= <- _]. rewrite Hc1, Hs1, Hq1. cbn. split; [lia|]. split; [done|].
          exists []. rewrite app_nil_r. split; [done|]. apply prefix_nil. }
      intros Hrest. apply IH in Hrest as (H1 & H2 & waits & H3 & H4). cbn in H1, H2, H3.
      rewrite Hc1 in H1. rewrite Hq1 in H2. rewrite Hs1 in H3. cbn in H1.
      split; [cbn; lia|]. split; [done|].
      exists ((2 + a * 3)%Z :: waits). split; [by rewrite H3, <- app_assoc|].
      rewrite filter_cons_True by done. cbn. by apply prefix_cons.
Qed.

(** X15. Whatever the index and the service do, and whichever names the
    module has bound, one call of [generate_answer] asks the service at
    most three times and sleeps at most twice, for 2 and then 5
    seconds: it never waits longer than 7 seconds in all. *)
Theorem generate_answer_is_bounded question w0 w r :
  generate_answer globals embed_fn collection_query ollama_chat TOP_K question w0 = (w, r) →
  chat_calls w ≤ chat_calls w0 + 3
  ∧ ∃ waits, sleeps w = sleeps w0 ++ waits ∧ waits `prefix_of` [2; 5]%Z.
Proof.
  unfold generate_answer, bind.
  destruct (retrieve _ _ _ _ _ w0) as [w1 [docs|e]] eqn:Hr;
    pose proof (retrieve_keeps_generation _ _ _ _ _ _ _ _ Hr) as [= Hk1 Hk2].
  - destruct (_build_prompt question docs) as [s u].
    intros (H1 & _ & waits & H3 & H4)%attempts_bounded.
    rewrite Hk1 in H1. rewrite Hk2 in H3. split; [cbn in H1; lia|]. by exists waits.
  - intros [= <- _]. rewrite Hk1, Hk2. split; [lia|]. exists []. rewrite app_nil_r.
    split; [done|]. apply prefix_nil.
Qed.

End service.

(** X16. With the names rag_service.py binds, a call of
    [generate_answer] whose retrieval succeeds asks the service exactly
    once and never sleeps, whatever the service answers or raises: no
    second attempt is ever made. *)
Theorem the_module_asks_the_service_once {V D}
    (embed_fn : list string → list V)
    (collection_query : nat → V → nat → result (query_result D))
    (ollama_chat : nat → string → string → result string)
    (TOP_K : nat) (question : string) (w0 w1 w : world) docs r :
  retrieve rag_service_globals embed_fn collection_query question TOP_K w0 = (w1, Ok docs) →
  generate_answer rag_service_globals embed_fn collection_query ollama_chat TOP_K question w0
  = (w, r) →
  chat_calls w = 1 + chat_calls w0 ∧ sleeps w = sleeps w0.
Proof.
  intros Hr. unfold generate_answer. rewrite (bind_ok _ _ _ _ _ Hr).
  pose proof (retrieve_keeps_generation _ _ _ _ _ _ _ _ Hr) as [= Hk1 Hk2].
  destruct (_build_prompt question docs) as [s u].
  change (range 3) with [0; 1; 2]%Z.
  destruct (ollama_chat (chat_calls w1) s u) as [answer|e] eqn:E.
  - rewrite (attempt_answers _ _ _ _ _ _ _ _ _ _ E). intros [= <- _]. cbn. by rewrite Hk1, Hk2.
  - assert (∀ x : result (string * list (string * gmap string pyval * D)),
              (count_chat w1, x) = (w, r) →
              chat_calls w = 1 + chat_calls w0 ∧ sleeps w = sleeps w0) as Hstop.
    { intros x [= <- _]. cbn. by rewrite Hk1, Hk2. }
    destruct e as [m|m|m|m|text status|c m];
      try (rewrite (attempt_raises _ _ _ _ _ _ _ _ _ _ E); apply Hstop).
    destruct (Z.eqb_spec status 503) as [->|Hs].
    + destruct (attempt_503_time_unbound rag_service_globals ollama_chat
                  0 [1; 2]%Z s u docs None w1 text) as [m0 ->];
        [apply (bool_decide_unpack _); vm_compute; exact I
        |apply (bool_decide_unpack _); vm_compute; exact I|done|done|].
      intros [= <- _]. cbn. by rewrite Hk1, Hk2.
    + rewrite (attempt_raises _ _ _ _ _ _ _ _ _ _ E).
      apply Z.eqb_neq in Hs as ->. apply Hstop.
Qed.

Lemma retrieve_keeps_the_order_witness :
  ∃ ps, retrieve rag_service_globals embed1 index_ok "Q?" 4 world0 = (count_query world0, Ok ps)
    ∧ length ps = length ["D"] `min` (length [ ({["source" := PStr "S"]} : gmap string pyval) ]
                                     `min` length [0%Z])
    ∧ ∀ i d m x, ps !! i = Some (d, m, x)
                 ↔ ["D"] !! i = Some d
                   ∧ [ ({["source" := PStr "S"]} : gmap string pyval) ] !! i = Some m
                   ∧ [0%Z] !! i = Some x.
Proof.
  apply (retrieve_keeps_the_order_of_the_index rag_service_globals embed1 index_ok
           "Q?" 4 world0 2%Z one_hit _ _ _ [] [] []); reflexivity.
Defined.

Lemma retrieve_without_a_key_witness :
  retrieve rag_service_globals embed1 index_without_distances "Q?" 4 world0
  = (count_query world0, Ok []).
Proof.
  apply (retrieve_without_a_key_finds_nothing rag_service_globals embed1
           index_without_distances "Q?" 4 world0 2%Z without_distances
           ["D"] [ {["source" := PStr "S"]} ] []).
  - reflexivity.
  - reflexivity.
  - right. right. reflexivity.
  - reflexivity.
  - reflexivity.
  - reflexivity.
Defined.

Lemma retrieve_with_an_empty_result_list_witness :
  retrieve rag_service_globals embed1 index_no_hit_lists "Q?" 4 world0
  = (count_query world0, Raise (IndexError "list index out of range")).
Proof.
  apply (retrieve_with_an_empty_result_list rag_service_globals embed1
           index_no_hit_lists "Q?" 4 world0 2%Z no_hit_lists); reflexivity.
Defined.

Lemma retrieve_passes_other_exceptions_on_witness :
  retrieve rag_service_globals embed1 index_gone "Q?" 4 world0
  = (count_query world0, Raise (ValueError "Collection edu_assistant does not exist.")).
Proof.
  apply (retrieve_passes_other_exceptions_on rag_service_globals embed1
           index_gone "Q?" 4 world0 2%Z); reflexivity.
Defined.


Lemma generate_answer_is_bounded_witness :
  let w := (generate_answer ("time" :: rag_service_globals) embed1 index_ok always_503 4
              "Q?" world0).1 in
  chat_calls w ≤ chat_calls world0 + 3
  ∧ ∃ waits, sleeps w = sleeps world0 ++ waits ∧ waits `prefix_of` [2; 5]%Z.
Proof.
  apply (generate_answer_is_bounded ("time" :: rag_service_globals) embed1 index_ok
           always_503 4 "Q?" world0 _
           (generate_answer ("time" :: rag_service_globals) embed1 index_ok always_503 4
              "Q?" world0).2).
  apply surjective_pairing.
Defined.

Lemma the_module_asks_the_service_once_witness :
  let w := (generate_answer rag_service_globals embed1 index_ok always_answers 4
              "Q?" world0).1 in
  chat_calls w = 1 + chat_calls world0 ∧ sleeps w = sleeps world0.
Proof.
  apply (the_module_asks_the_service_once embed1 index_ok always_answers 4 "Q?" world0
           (count_query world0) _ [("D", {["source" := PStr "S"]}, 0%Z)]
           (generate_answer rag_service_globals embed1 index_ok always_answers 4
              "Q?" world0).2).
  - vm_compute. reflexivity.
  - apply surjective_pairing.
Defined.

End RetrievalFacts.

(* ===================================================================== *)
(** ** rag_service.py: opening the collection *)
(* ===================================================================== *)

Module RagInitFacts.
Import PyFacts RagInit Sample.

(** X17. [_get_or_create_collection] makes at most five client calls.
    It deletes the collection only after both attempts to open it have
    failed; when the first attempt succeeds that is the only call; and
    when the method raises, it has made all five calls: the two opens,
    the delete and the two creations. *)
Theorem init_deletes_only_after_two_failed_opens client w w' r :
  _get_or_create_collection client w = (w', r) →
  let n := length (client_calls w) in
  ∃ new, client_calls w' = client_calls w ++ new
    ∧ length new ≤ 5
    ∧ (Delete ∈ new →
         (∃ e, client n (GetOrCreate None) = Raise e)
         ∧ (∃ e, client (S n) (GetOrCreate (Some cosine)) = Raise e))
    ∧ (client n (GetOrCreate None) = Ok tt → new = [GetOrCreate None] ∧ r = Ok tt)
    ∧ (∀ e, r = Raise e →
         new = [GetOrCreate None; GetOrCreate (Some cosine); Delete;
                Create None; Create (Some cosine)]).
Proof.
  intros H n. unfold _get_or_create_collection, try_except, bind, call, warning, ret in H.
  cbn in H. fold n in H.
  destruct (client n (GetOrCreate None)) as [[]|e1] eqn:E1.
  { injection H as <- <-. exists [GetOrCreate None]. cbn.
    split_and!; try done; try lia. intros Hd.
    repeat (apply elem_of_cons in Hd as [Hd|Hd]; [done|]). by apply elem_of_nil in Hd. }
  rewrite length_app in H. cbn in H. rewrite Nat.add_1_r in H. fold n in H.
  destruct (client (S n) (GetOrCreate (Some cosine))) as [[]|e2] eqn:E2.
  { injection H as <- <-. exists [GetOrCreate None; GetOrCreate (Some cosine)]. cbn.
    rewrite <- app_assoc. split_and!; try done; try lia. intros Hd.
    repeat (apply elem_of_cons in Hd as [Hd|Hd]; [done|]). by apply elem_of_nil in Hd. }
  repeat case_match; simplify_eq/=; rewrite <- ?app_assoc; cbn;
    (eexists; split; [reflexivity|]); cbn; split_and!; eauto; try lia; try done.
Qed.

Lemma init_deletes_witness :
  let w := {| client_calls := []; warnings := [] |} in
  let w' := (_get_or_create_collection client_refuses w).1 in
  let r := (_get_or_create_collection client_refuses w).2 in
  ∃ new, client_calls w' = client_calls w ++ new
    ∧ length new ≤ 5
    ∧ (Delete ∈ new →
         (∃ e, client_refuses 0 (GetOrCreate None) = Raise e)
         ∧ (∃ e, client_refuses 1 (GetOrCreate (Some cosine)) = Raise e))
    ∧ (client_refuses 0 (GetOrCreate None) = Ok tt → new = [GetOrCreate None] ∧ r = Ok tt)
    ∧ (∀ e, r = Raise e →
         new = [GetOrCreate None; GetOrCreate (Some cosine); Delete;
                Create None; Create (Some cosine)]).
Proof.
  apply (init_deletes_only_after_two_failed_opens client_refuses
           {| client_calls := []; warnings := [] |}).
  apply surjective_pairing.
Defined.

End RagInitFacts.

(* ===================================================================== *)
(** ** bot.py: the user state and the handlers *)
(* ===================================================================== *)

Module BotFacts.
Import PyFacts Bot Sample.

Lemma get_user_state_lookup uid us :
  (get_user_state uid us).1 !! uid = Some (get_user_state uid us).2.
Proof.
  unfold get_user_state. destruct (us !! uid) eqn:E; cbn; [done|].
  by rewrite lookup_insert_eq.
Qed.

Lemma get_user_state_other uid uid' us :
  uid' ≠ uid → (get_user_state uid us).1 !! uid' = us !! uid'.
Proof.
  intros H. unfold get_user_state. destruct (us !! uid) eqn:E; cbn; [done|].
  by rewrite lookup_insert_ne.
Qed.

Lemma get_user_state_value uid us :
  (get_user_state uid us).2 = default new_state (us !! uid).
Proof. unfold get_user_state. by destruct (us !! uid). Qed.

Lemma get_user_state_keeps uid uid' us s :
  us !! uid' = Some s → (get_user_state uid us).1 !! uid' = Some s.
Proof.
  intros H. destruct (decide (uid' = uid)) as [->|Hne].
  - by rewrite get_user_state_lookup, get_user_state_value, H.
  - by rewrite get_user_state_other.
Qed.

Lemma get_user_state_again uid us :
  get_user_state uid (get_user_state uid us).1 = get_user_state uid us.
Proof.
  unfold get_user_state. destruct (us !! uid) eqn:E; cbn; [by rewrite E|].
  by rewrite lookup_insert_eq.
Qed.

Lemma set_user_state_lookup uid kws us :
  set_user_state uid kws us !! uid
  = Some (fold_left set_key kws (default new_state (us !! uid))).
Proof.
  unfold set_user_state. rewrite <- get_user_state_value.
  destruct (get_user_state uid us). by rewrite lookup_insert_eq.
Qed.

Lemma set_user_state_other uid uid' kws us :
  uid' ≠ uid → set_user_state uid kws us !! uid' = us !! uid'.
Proof.
  intros H. unfold set_user_state. rewrite <- (get_user_state_other uid uid' us H).
  destruct (get_user_state uid us). by rewrite lookup_insert_ne.
Qed.

Lemma add_to_history_lookup uid q a us :
  let s := default new_state (us !! uid) in
  let h := history s ++ [(q, a)] in
  add_to_history uid q a us !! uid
  = Some {| history := if 10 <? length h then last_n 10 h else h;
            favorites := favorites s; last_answer := last_answer s;
            last_sources := last_sources s; awaiting := awaiting s |}.
Proof.
  intros s h. unfold add_to_history, h, s. rewrite <- get_user_state_value.
  destruct (get_user_state uid us). cbn [snd]. apply lookup_insert_eq.
Qed.

Lemma add_to_history_other uid uid' q a us :
  uid' ≠ uid → add_to_history uid q a us !! uid' = us !! uid'.
Proof.
  intros H. unfold add_to_history. rewrite <- (get_user_state_other uid uid' us H).
  destruct (get_user_state uid us). by rewrite lookup_insert_ne.
Qed.

Lemma add_to_favorites_lookup now uid a us :
  let s := default new_state (us !! uid) in
  let f := favorites s ++ [{| fav_text := a; fav_date := now |}] in
  add_to_favorites now uid a us !! uid
  = Some {| history := history s;
            favorites := if 20 <? length f then last_n 20 f else f;
            last_answer := last_answer s;
            last_sources := last_sources s; awaiting := awaiting s |}.
Proof.
  intros s f. unfold add_to_favorites, f, s. rewrite <- get_user_state_value.
  destruct (get_user_state uid us). cbn [snd]. apply lookup_insert_eq.
Qed.

Lemma add_to_favorites_other now uid uid' a us :
  uid' ≠ uid → add_to_favorites now uid a us !! uid' = us !! uid'.
Proof.
  intros H. unfold add_to_favorites. rewrite <- (get_user_state_other uid uid' us H).
  destruct (get_user_state uid us). by rewrite lookup_insert_ne.
Qed.

Lemma last_n_length {A} n (l : list A) : length (last_n n l) = length l `min` n.
Proof. unfold last_n. rewrite length_drop. lia. Qed.

(** What appending and trimming to the last [n] leaves. *)
Lemma trimmed {A} (n : nat) (old : list A) (x : A) :
  0 < n →
  let l := old ++ [x] in
  let kept := if n <? length l then last_n n l else l in
  length kept = (length old + 1) `min` n
  ∧ kept `suffix_of` l
  ∧ last kept = Some x.
Proof.
  intros Hn l kept. subst kept.
  assert (length l = length old + 1) as Hl by (unfold l; by rewrite length_app).
  destruct (Nat.ltb_spec n (length l)); cbv iota.
  - rewrite last_n_length. split; [lia|]. split; [apply suffix_drop|].
    unfold last_n. rewrite Hl. unfold l. rewrite drop_app_le by lia. apply last_snoc.
  - split; [lia|]. split; [done|]. apply last_snoc.
Qed.

(** X18. [add_to_history] puts the exchange at the end of the history
    of the user and keeps the ten newest exchanges, older ones being
    dropped from the front; it creates the state of a user it has not
    seen, and changes neither the favorites, the last answer nor any
    other user. *)
Theorem history_keeps_the_last_ten uid q a us :
  let before := default new_state (us !! uid) in
  ∃ s, add_to_history uid q a us !! uid = Some s
    ∧ length (history s) = (length (history before) + 1) `min` 10
    ∧ history s `suffix_of` (history before ++ [(q, a)])
    ∧ last (history s) = Some (q, a)
    ∧ favorites s = favorites before
    ∧ last_answer s = last_answer before
    ∧ ∀ uid', uid' ≠ uid → add_to_history uid q a us !! uid' = us !! uid'.
Proof.
  intros before. eexists. split; [apply add_to_history_lookup|]. cbn [history favorites last_answer].
  destruct (trimmed 10 (history before) (q, a)) as (H1 & H2 & H3); [lia|].
  split_and!; try done. intros uid'. apply add_to_history_other.
Qed.

(** X19. [add_to_favorites] puts the answer with its date at the end of
    the favorites of the user and keeps the twenty newest; the history,
    the last answer and the other users are left alone. *)
Theorem favorites_keep_the_last_twenty now uid a us :
  let before := default new_state (us !! uid) in
  ∃ s, add_to_favorites now uid a us !! uid = Some s
    ∧ length (favorites s) = (length (favorites before) + 1) `min` 20
    ∧ favorites s `suffix_of` (favorites before ++ [{| fav_text := a; fav_date := now |}])
    ∧ last (favorites s) = Some {| fav_text := a; fav_date := now |}
    ∧ history s = history before
    ∧ last_answer s = last_answer before
    ∧ ∀ uid', uid' ≠ uid → add_to_favorites now uid a us !! uid' = us !! uid'.
Proof.
  intros before. eexists. split; [apply add_to_favorites_lookup|]. cbn [history favorites last_answer].
  destruct (trimmed 20 (favorites before) {| fav_text := a; fav_date := now |})
    as (H1 & H2 & H3); [lia|].
  split_and!; try done. intros uid'. apply add_to_favorites_other.
Qed.

(** *** handle_question *)

Section handlers.
Context {R D : Type}.
Variable telegram : nat → outgoing → result unit.
Variable generate_answer : string → M R (string * list (string * gmap string pyval * D)).
Variable set_list : list pyval → list pyval.

Abbreviation handle := (handle_question telegram generate_answer set_list).

Lemma blank_run msg question user_id (w : world R) :
  asked msg question = "" →
  handle msg question user_id w
  = (after w (user_state w) [Reply "Пришлите текстовый вопрос."] [] (rag w),
     telegram (length (sent w)) (Reply "Пришлите текстовый вопрос.")).
Proof.
  intros Hq. unfold handle_question. rewrite Hq. cbn. unfold send, after.
  by rewrite app_nil_r.
Qed.

Lemma no_user_run msg question user_id (w : world R) e :
  asked msg question ≠ "" → user_of msg user_id = Raise e →
  handle msg question user_id w = (w, Raise e).
Proof.
  intros Hq Hu. unfold handle_question. apply String.eqb_neq in Hq. rewrite Hq, Hu. done.
Qed.

Lemma thinking_fails_run msg question user_id (w : world R) uid e :
  asked msg question ≠ "" → user_of msg user_id = Ok uid →
  telegram (length (sent w)) thinking = Raise e →
  handle msg question user_id w
  = (after w (get_user_state uid (user_state w)).1 [thinking] [] (rag w), Raise e).
Proof.
  intros Hq Hu Ht. unfold handle_question. apply String.eqb_neq in Hq. rewrite Hq, Hu.
  unfold bind, lift, user_state_of, send, after. cbn. rewrite Ht. by rewrite app_nil_r.
Qed.

Lemma failure_run msg question user_id (w : world R) uid r exc :
  asked msg question ≠ "" → user_of msg user_id = Ok uid →
  telegram (length (sent w)) thinking = Ok tt →
  generate_answer (asked msg question) (rag w) = (r, Raise exc) →
  handle msg question user_id w
  = (after w (get_user_state uid (user_state w)).1 [thinking; error_message exc]
       ["Failed to answer question"] r, Ok tt).
Proof.
  intros Hq Hu Ht Hg. unfold handle_question. apply String.eqb_neq in Hq. rewrite Hq, Hu.
  unfold bind, lift, user_state_of, send, try_except, on_rag, logging_exception, ret, after.
  cbn. rewrite Ht, Hg. cbn. rewrite <- app_assoc. cbn.
  by destruct (telegram _ (error_message exc)) as [[]|?].
Qed.

Lemma sources_failure_run msg question user_id (w : world R) uid r answer docs exc :
  asked msg question ≠ "" → user_of msg user_id = Ok uid →
  telegram (length (sent w)) thinking = Ok tt →
  generate_answer (asked msg question) (rag w) = (r, Ok (answer, docs)) →
  sources_text set_list docs = Raise exc →
  handle msg question user_id w
  = (after w (recorded uid (asked msg question) answer docs (user_state w))
       [thinking; error_message exc] ["Failed to answer question"] r, Ok tt).
Proof.
  intros Hq Hu Ht Hg Hs. unfold handle_question. apply String.eqb_neq in Hq. rewrite Hq, Hu.
  unfold bind, lift, user_state_of, send, try_except, on_rag, on_users,
    logging_exception, ret, after.
  cbn. rewrite Ht, Hg. cbn. rewrite Hs. cbn. rewrite <- app_assoc. cbn.
  by destruct (telegram _ (error_message exc)) as [[]|?].
Qed.

Lemma success_run msg question user_id (w : world R) uid r answer docs footer :
  asked msg question ≠ "" → user_of msg user_id = Ok uid →
  telegram (length (sent w)) thinking = Ok tt →
  generate_answer (asked msg question) (rag w) = (r, Ok (answer, docs)) →
  sources_text set_list docs = Ok footer →
  let n := length (sent w) in
  let us := recorded uid (asked msg question) answer docs (user_state w) in
  let formatted := Answer (answer +:+ footer) MarkdownMode FeedbackKeyboard in
  let plain := Answer (answer +:+ footer) NoParseMode FeedbackKeyboard in
  handle msg question user_id w
  = match telegram (n + 1) formatted with
    | Ok _ => (after w us [thinking; formatted] [] r, Ok tt)
    | Raise _ =>
        match telegram (n + 2) plain with
        | Ok _ => (after w us [thinking; formatted; plain] [] r, Ok tt)
        | Raise exc =>
            (after w us [thinking; formatted; plain; error_message exc]
               ["Failed to answer question"] r, Ok tt)
        end
    end.
Proof.
  intros Hq Hu Ht Hg Hs n us formatted plain.
  unfold handle_question. apply String.eqb_neq in Hq. rewrite Hq, Hu.
  unfold bind, lift, user_state_of, send, try_except, on_rag, on_users,
    logging_exception, ret, after.
  cbn. rewrite Ht, Hg. cbn. rewrite Hs. cbn.
  rewrite !length_app. cbn. fold n formatted plain.
  destruct (telegram (n + 1) formatted) as [[]|e1].
  { rewrite <- app_assoc, app_nil_r. done. }
  replace (n + 1 + 1) with (n + 2) by lia.
  destruct (telegram (n + 2) plain) as [[]|e2].
  { rewrite <- !app_assoc, app_nil_r. done. }
  repeat (rewrite <- app_assoc; cbn [app]). cbn [user_state sent logged rag].
  repeat (rewrite <- app_assoc; cbn [app]).
  by destruct (telegram _ (error_message e2)) as [[]|?].
Qed.

Lemma handle_question_answers msg question user_id (w : world R) uid :
  asked msg question ≠ "" → user_of msg user_id = Ok uid →
  telegram (length (sent w)) thinking = Ok tt →
  (handle msg question user_id w).2 = Ok tt.
Proof.
  intros Hq Hu Ht.
  destruct (generate_answer (asked msg question) (rag w)) as [r [[answer docs]|exc]] eqn:Hg.
  - destruct (sources_text set_list docs) as [footer|exc] eqn:Hs.
    + rewrite (success_run _ _ _ _ _ _ _ _ _ Hq Hu Ht Hg Hs).
      by repeat case_match.
    + by rewrite (sources_failure_run _ _ _ _ _ _ _ _ _ Hq Hu Ht Hg Hs).
  - by rewrite (failure_run _ _ _ _ _ _ _ Hq Hu Ht Hg).
Qed.

Lemma user_of_raises msg user_id e : user_of msg user_id = Raise e → from_user msg = None.
Proof.
  unfold user_of, from_user_id. destruct user_id as [u|]; [destruct (u =? 0)%Z|];
    by destruct (from_user msg).
Qed.

(** X20. An exception leaves [handle_question] only from its first
    send (the reply to an empty question or the thinking notice) or
    from a message without sender. In that case the service has not
    been asked, nothing is logged, at most that one message went out
    and no state of a user has changed. *)
Theorem only_the_first_send_can_fail msg question user_id (w w' : world R) e :
  handle msg question user_id w = (w', Raise e) →
  rag w' = rag w ∧ logged w' = logged w
  ∧ (∀ uid s, user_state w !! uid = Some s → user_state w' !! uid = Some s)
  ∧ (from_user msg = None ∧ sent w' = sent w
     ∨ ∃ o, o ∈ [Reply "Пришлите текстовый вопрос."; thinking]
            ∧ sent w' = sent w ++ [o]
            ∧ telegram (length (sent w)) o = Raise e).
Proof.
  intros H. destruct (decide (asked msg question = "")) as [Hq|Hq].
  { rewrite (blank_run _ _ _ _ Hq) in H. injection H as <- H. cbn.
    rewrite app_nil_r. split_and!; try done. right. eexists. split; [|done].
    apply list_elem_of_here. }
  destruct (user_of msg user_id) as [uid|e0] eqn:Hu.
  2:{ rewrite (no_user_run _ _ _ _ _ Hq Hu) in H. injection H as <- <-.
      split_and!; try done. left. split; [|done]. by eapply user_of_raises. }
  destruct (telegram (length (sent w)) thinking) as [[]|e0] eqn:Ht.
  { pose proof (handle_question_answers _ _ _ _ _ Hq Hu Ht) as Hok.
    by rewrite H in Hok. }
  rewrite (thinking_fails_run _ _ _ _ _ _ Hq Hu Ht) in H. injection H as <- <-. cbn.
  rewrite app_nil_r. split_and!; try done.
  - intros uid' s. apply get_user_state_keeps.
  - right. eexists. split; [|done]. apply list_elem_of_further, list_elem_of_here.
Qed.

(** X21. When the service raises, [handle_question] does not: it logs
    the failure once, sends after the thinking notice one plain message
    holding the text of the exception after "Ошибка: ", whatever
    Telegram makes of that message, and records no exchange: the state
    of the user is what it was (a new one if there was none). *)
Theorem failed_answer_is_reported msg question user_id (w : world R) uid r exc :
  asked msg question ≠ "" → user_of msg user_id = Ok uid →
  telegram (length (sent w)) thinking = Ok tt →
  generate_answer (asked msg question) (rag w) = (r, Raise exc) →
  ∃ w', handle msg question user_id w = (w', Ok tt)
    ∧ sent w' = sent w ++ [thinking; Answer ("Ошибка: " +:+ str_exn exc) NoParseMode NoKeyboard]
    ∧ logged w' = logged w ++ ["Failed to answer question"]
    ∧ user_state w' !! uid = Some (default new_state (user_state w !! uid))
    ∧ ∀ uid', uid' ≠ uid → user_state w' !! uid' = user_state w !! uid'.
Proof.
  intros Hq Hu Ht Hg. eexists. split; [by apply failure_run|]. cbn.
  split_and!; try done.
  - by rewrite get_user_state_lookup, get_user_state_value.
  - intros uid'. apply get_user_state_other.
Qed.

Lemma recorded_lookup uid q answer (docs : list (string * gmap string pyval * D)) us :
  let before := default new_state (us !! uid) in
  ∃ s, recorded uid q answer docs us !! uid = Some s
    ∧ last_answer s = Some answer
    ∧ last_sources s = source_of <$> docs
    ∧ last (history s) = Some (q, answer)
    ∧ history s `suffix_of` (history before ++ [(q, answer)])
    ∧ length (history s) = (length (history before) + 1) `min` 10
    ∧ favorites s = favorites before
    ∧ awaiting s = awaiting before.
Proof.
  intros before. unfold recorded. eexists. split; [apply add_to_history_lookup|].
  rewrite set_user_state_lookup, get_user_state_lookup, get_user_state_value.
  fold before. cbn.
  destruct (trimmed 10 (history before) (q, answer)) as (H1 & H2 & H3); [lia|].
  by split_and!.
Qed.

Lemma recorded_other uid uid' q answer (docs : list (string * gmap string pyval * D)) us :
  uid' ≠ uid → recorded uid q answer docs us !! uid' = us !! uid'.
Proof.
  intros H. unfold recorded.
  by rewrite add_to_history_other, set_user_state_other, get_user_state_other.
Qed.

Lemma answered_run msg question user_id (w : world R) uid r answer docs :
  asked msg question ≠ "" → user_of msg user_id = Ok uid →
  telegram (length (sent w)) thinking = Ok tt →
  generate_answer (asked msg question) (rag w) = (r, Ok (answer, docs)) →
  ∃ new logs,
    handle msg question user_id w
    = (after w (recorded uid (asked msg question) answer docs (user_state w)) new logs r,
       Ok tt).
Proof.
  intros Hq Hu Ht Hg. destruct (sources_text set_list docs) as [footer|exc] eqn:Hs.
  - rewrite (success_run _ _ _ _ _ _ _ _ _ Hq Hu Ht Hg Hs). repeat case_match; eauto.
  - rewrite (sources_failure_run _ _ _ _ _ _ _ _ _ Hq Hu Ht Hg Hs). eauto.
Qed.

(** X22. Once the service has answered, the exchange is recorded
    before anything is sent: whatever Telegram does with the messages
    (and whatever the sources are), the handler returns normally, the
    state of the user holds the answer as last answer, the source of
    every passage as last sources, and the question with the answer as
    newest exchange of the history; favorites and other users are
    untouched. *)
Theorem answer_is_recorded_whatever_telegram_does msg question user_id (w : world R)
    uid r answer docs :
  asked msg question ≠ "" → user_of msg user_id = Ok uid →
  telegram (length (sent w)) thinking = Ok tt →
  generate_answer (asked msg question) (rag w) = (r, Ok (answer, docs)) →
  let before := default new_state (user_state w !! uid) in
  ∃ w' s, handle msg question user_id w = (w', Ok tt)
    ∧ rag w' = r
    ∧ user_state w' !! uid = Some s
    ∧ last_answer s = Some answer
    ∧ last_sources s = source_of <$> docs
    ∧ last (history s) = Some (asked msg question, answer)
    ∧ history s `suffix_of` (history before ++ [(asked msg question, answer)])
    ∧ favorites s = favorites before
    ∧ ∀ uid', uid' ≠ uid → user_state w' !! uid' = user_state w !! uid'.
Proof.
  intros Hq Hu Ht Hg before.
  destruct (answered_run _ _ _ _ _ _ _ _ Hq Hu Ht Hg) as (new & logs & ->).
  destruct (recorded_lookup uid (asked msg question) answer docs (user_state w))
    as (s & H1 & H2 & H3 & H4 & H5 & _ & H6 & _).
  eexists _, s. split; [done|]. cbn. split_and!; try done.
  intros uid'. apply recorded_other.
Qed.

(** X23. When Telegram rejects the answer sent as Markdown, the same
    text is sent again without a parse mode, with the same keyboard.
    When that second send fails too, the failure is logged and reported
    in a third message, although the answer is already recorded. *)
Theorem formatting_failure_falls_back_to_plain_text msg question user_id (w : world R)
    uid r answer docs footer e1 :
  asked msg question ≠ "" → user_of msg user_id = Ok uid →
  telegram (length (sent w)) thinking = Ok tt →
  generate_answer (asked msg question) (rag w) = (r, Ok (answer, docs)) →
  sources_text set_list docs = Ok footer →
  let formatted := Answer (answer +:+ footer) MarkdownMode FeedbackKeyboard in
  let plain := Answer (answer +:+ footer) NoParseMode FeedbackKeyboard in
  telegram (length (sent w) + 1) formatted = Raise e1 →
  ∃ w' rest, handle msg question user_id w = (w', Ok tt)
    ∧ sent w' = sent w ++ [thinking; formatted; plain] ++ rest
    ∧ (telegram (length (sent w) + 2) plain = Ok tt → rest = [] ∧ logged w' = logged w)
    ∧ (∀ e2, telegram (length (sent w) + 2) plain = Raise e2 →
         rest = [Answer ("Ошибка: " +:+ str_exn e2) NoParseMode NoKeyboard]
         ∧ logged w' = logged w ++ ["Failed to answer question"]).
Proof.
  intros Hq Hu Ht Hg Hs formatted plain H1.
  rewrite (success_run _ _ _ _ _ _ _ _ _ Hq Hu Ht Hg Hs). cbv zeta.
  fold formatted plain. rewrite H1.
  destruct (telegram (length (sent w) + 2) plain) as [[]|e2].
  - eexists _, []. split; [done|]. cbn. rewrite app_nil_r. by split_and!.
  - eexists _, [_]. split; [done|]. cbn. split_and!; [done|done|].
    by intros ? [= <-].
Qed.

(** *** The sources under an answer *)

#[local] Instance PStr_inj : Inj (=) (=) PStr.
Proof. by intros ?? [= ->]. Qed.

Lemma str_items_strings i (ss : list string) : str_items i (PStr <$> ss) = Ok ss.
Proof.
  revert i. induction ss as [|s ss IH]; intros i; [done|]. cbn. by rewrite IH.
Qed.

Lemma shown_sources (docs : list (string * gmap string pyval * D)) :
  (∀ l, NoDup (set_list l) ∧ ∀ x, x ∈ set_list l ↔ x ∈ l) →
  (∀ d n, d ∈ docs → d.1.2 !! "source" ≠ Some (PInt n)) →
  ∃ shown,
    sources_text set_list docs
    = Ok (match shown with [] => "" | _ :: _ => sources_label +:+ join ", " shown end)
    ∧ length shown ≤ 3 ∧ NoDup shown
    ∧ (∀ s, s ∈ shown → s ≠ "" ∧ ∃ d, d ∈ docs ∧ d.1.2 !! "source" = Some (PStr s))
    ∧ (length shown < 3 →
       ∀ d s, d ∈ docs → d.1.2 !! "source" = Some (PStr s) → s ≠ "" → s ∈ shown).
Proof.
  intros Hset Hstr. unfold sources_text.
  set (found := source_of <$> List.filter has_source docs).
  destruct (Hset found) as [Hnd Hin].
  assert (∀ v, v ∈ found ↔
               ∃ s d, v = PStr s ∧ s ≠ "" ∧ d ∈ docs ∧ d.1.2 !! "source" = Some (PStr s))
    as Hfound.
  { intros v. unfold found. rewrite list_elem_of_fmap. split.
    - intros (d & -> & Hd). apply list_elem_of_In, filter_In in Hd as [Hd Hs].
      apply list_elem_of_In in Hd. unfold has_source in Hs. unfold source_of.
      destruct (d.1.2 !! "source") as [[s|n]|] eqn:E; [|by destruct (Hstr d n Hd)|done].
      exists s, d. cbn in Hs. split_and!; try done. intros ->. done.
    - intros (s & d & -> & Hs & Hd & E). exists d. split.
      + unfold source_of. by rewrite E.
      + apply list_elem_of_In, filter_In. split; [by apply list_elem_of_In|].
        unfold has_source. rewrite E. cbn. by apply negb_true_iff, String.eqb_neq. }
  assert (∃ names, set_list found = PStr <$> names) as [names Hnames].
  { assert (Forall (λ v, ∃ s, v = PStr s) (set_list found)) as Hall.
    { apply Forall_forall. intros v Hv. apply Hin, Hfound in Hv as (s & _ & -> & _).
      by exists s. }
    clear -Hall. induction Hall as [|v l [s ->] _ [names ->]]; [by exists []|].
    by exists (s :: names). }
  rewrite Hnames in *. exists (take 3 names).
  assert (NoDup names) as Hnd' by (by eapply (NoDup_fmap_1 PStr)).
  assert (∀ s, s ∈ names ↔
               s ≠ "" ∧ ∃ d, d ∈ docs ∧ d.1.2 !! "source" = Some (PStr s)) as Hn.
  { intros s. rewrite <- (list_elem_of_fmap_inj PStr), Hin, Hfound. split.
    - intros (s' & d & [= <-] & ? & ? & ?). eauto.
    - intros (? & d & ? & ?). exists s, d. eauto. }
  split.
  { rewrite <- fmap_take, str_items_strings. by destruct names. }
  split; [rewrite length_take; lia|]. split; [apply (sublist_NoDup _ names); [done|apply sublist_take]|]. split.
  - intros s Hs. apply Hn. by eapply subseteq_take.
  - intros Hlen d s Hd E Hs. rewrite length_take in Hlen.
    rewrite take_ge by lia. apply Hn. eauto.
Qed.

(** X24. The answer names at most three sources, each once, none empty,
    each the source of a retrieved passage; when fewer than three are
    named, every source of a passage is among them; and no source line
    is added when no passage has a source. (Sources that are strings; a
    set that yields each value once.) *)
Theorem answer_names_at_most_three_sources msg question user_id (w : world R)
    uid r answer docs :
  asked msg question ≠ "" → user_of msg user_id = Ok uid →
  telegram (length (sent w)) thinking = Ok tt →
  generate_answer (asked msg question) (rag w) = (r, Ok (answer, docs)) →
  (∀ l, NoDup (set_list l) ∧ ∀ x, x ∈ set_list l ↔ x ∈ l) →
  (∀ d n, d ∈ docs → d.1.2 !! "source" ≠ Some (PInt n)) →
  ∃ shown rest,
    sent (handle msg question user_id w).1
    = sent w ++
      thinking ::
      Answer (answer +:+
              match shown with
              | [] => ""
              | _ :: _ => nl +:+ nl +:+ "📚 Источники: " +:+ join ", " shown
              end) MarkdownMode FeedbackKeyboard :: rest
    ∧ length shown ≤ 3 ∧ NoDup shown
    ∧ (∀ s, s ∈ shown → s ≠ "" ∧ ∃ d, d ∈ docs ∧ d.1.2 !! "source" = Some (PStr s))
    ∧ (length shown < 3 →
       ∀ d s, d ∈ docs → d.1.2 !! "source" = Some (PStr s) → s ≠ "" → s ∈ shown).
Proof.
  intros Hq Hu Ht Hg Hset Hstr.
  destruct (shown_sources docs Hset Hstr) as (shown & Hs & Hrest).
  exists shown. rewrite (success_run _ _ _ _ _ _ _ _ _ Hq Hu Ht Hg Hs). cbv zeta.
  fold sources_label.
  repeat case_match; cbn [fst sent after]; eexists; (split; [reflexivity|done]).
Qed.

End handlers.

(** *** The handler on top of the service *)

(** X25. The bot on top of the service as rag_service.py defines it:
    when the generation service answers 503, the user gets, after the
    thinking notice, the message "Ошибка: name 'time' is not defined";
    the service was asked once, nothing was waited for, and no exchange
    is recorded. *)
Theorem overload_reaches_the_user_as_a_NameError {V D}
    (telegram : nat → outgoing → result unit) (set_list : list pyval → list pyval)
    (embed_fn : list string → list V)
    (collection_query : nat → V → nat → result (RagService.query_result D))
    (ollama_chat : nat → string → string → result string) (TOP_K : nat)
    msg question user_id (w : world RagService.world) uid r1 docs text :
  let generate_answer :=
    RagService.generate_answer RagService.rag_service_globals embed_fn collection_query
      ollama_chat TOP_K in
  let q := asked msg question in
  q ≠ "" → user_of msg user_id = Ok uid →
  telegram (length (sent w)) thinking = Ok tt →
  RagService.retrieve RagService.rag_service_globals embed_fn collection_query q TOP_K (rag w)
  = (r1, Ok docs) →
  ollama_chat (RagService.chat_calls r1) (RagService._build_prompt q docs).1
    (RagService._build_prompt q docs).2 = Raise (ResponseError text 503) →
  ∃ w', handle_question telegram generate_answer set_list msg question user_id w = (w', Ok tt)
    ∧ sent w' = sent w ++ [thinking;
                           Answer "Ошибка: name 'time' is not defined" NoParseMode NoKeyboard]
    ∧ RagService.chat_calls (rag w') = S (RagService.chat_calls r1)
    ∧ RagService.sleeps (rag w') = RagService.sleeps (rag w)
    ∧ history <$> user_state w' !! uid = Some (history (default new_state (user_state w !! uid))).
Proof.
  intros generate_answer q Hq Hu Ht Hr Hc.
  assert (∃ r, generate_answer q (rag w)
               = (r, Raise (NameError "name 'time' is not defined"))
             ∧ RagService.chat_calls r = S (RagService.chat_calls r1)
             ∧ RagService.sleeps r = RagService.sleeps (rag w)) as (r & Hg & H1 & H2).
  { unfold generate_answer, RagService.generate_answer.
    rewrite (bind_ok _ _ _ _ _ Hr).
    pose proof (RagServiceFacts.retrieve_keeps_generation _ _ _ _ _ _ _ _ Hr) as [= Hk1 Hk2].
    destruct (RagService._build_prompt q docs) as [s u]. cbn [fst snd] in Hc.
    change (RagService.range 3) with [0; 1; 2]%Z.
    destruct (RagServiceFacts.attempt_503_time_unbound RagService.rag_service_globals
                ollama_chat 0 [1; 2]%Z s u docs None r1 text) as [m0 ->].
    - apply (bool_decide_unpack _); vm_compute; exact I.
    - apply (bool_decide_unpack _); vm_compute; exact I.
    - done.
    - done.
    - eexists; split; [reflexivity|]. cbn. by rewrite Hk2. }
  eexists. split; [by eapply failure_run|]. cbn. split_and!; try done.
  by rewrite get_user_state_lookup, get_user_state_value.
Qed.

(** *** The other handlers *)

Section others.
Context {R : Type}.
Variable telegram : nat → outgoing → result unit.

(** X26. The reset button clears nothing a user has built up: after
    [reset_handler] the history, the favorites, the last answer and the
    last sources of the user are what they were; only [awaiting] is
    [None]. Other users are untouched. *)
Theorem reset_clears_nothing_but_awaiting msg uid (w : world R) :
  from_user msg = Some uid →
  let before := default new_state (user_state w !! uid) in
  ∃ w' s, reset_handler telegram msg w
          = (w', telegram (length (sent w)) (Answer "🔄 Параметры сброшены." Unset MainKeyboard))
    ∧ user_state w' !! uid = Some s
    ∧ history s = history before ∧ favorites s = favorites before
    ∧ last_answer s = last_answer before ∧ last_sources s = last_sources before
    ∧ awaiting s = None
    ∧ ∀ uid', uid' ≠ uid → user_state w' !! uid' = user_state w !! uid'.
Proof.
  intros Hu before. unfold reset_handler, from_user_id. rewrite Hu.
  unfold bind, lift, on_users, send. cbn.
  eexists _, _. split; [reflexivity|]. cbn. rewrite set_user_state_lookup.
  split; [reflexivity|]. cbn. split_and!; try done.
  intros uid'. apply set_user_state_other.
Qed.

(** X27. A feedback other than save is not stored anywhere: after
    [feedback_callback] the user store is what [get_user_state] leaves,
    nothing is logged and the service is not touched; an action that is
    neither good, bad nor save is not even answered. *)
Theorem feedback_other_than_save_is_not_stored now cb action (w : world R) :
  after_colon (data cb) = Ok action → action ≠ "save" →
  let w' := (feedback_callback telegram now cb w).1 in
  user_state w' = (get_user_state (callback_from_user cb) (user_state w)).1
  ∧ logged w' = logged w ∧ rag w' = rag w
  ∧ (action ≠ "good" → action ≠ "bad" → sent w' = sent w).
Proof.
  intros Ha Hs. unfold feedback_callback. rewrite Ha.
  unfold bind, lift, user_state_of, send, ret. cbn.
  apply String.eqb_neq in Hs. rewrite Hs.
  destruct (String.eqb_spec action "good") as [->|Hg];
    [|destruct (String.eqb_spec action "bad") as [->|Hb]]; cbn.
  - by split_and!.
  - by split_and!.
  - by split_and!.
Qed.

(** X28. Saving stores the last answer: when the user has a last answer
    that is not empty, [feedback_callback] with the action save puts it,
    dated, at the end of the favorites (at most twenty are kept) and
    leaves history and last answer alone. *)
Theorem save_stores_the_last_answer now cb (w : world R) s answer :
  after_colon (data cb) = Ok "save" →
  user_state w !! callback_from_user cb = Some s →
  last_answer s = Some answer → answer ≠ "" →
  ∃ w' s', feedback_callback telegram now cb w
           = (w', telegram (length (sent w)) (CallbackAnswer "💾 Сохранено в избранное!"))
    ∧ user_state w' !! callback_from_user cb = Some s'
    ∧ last (favorites s') = Some {| fav_text := answer; fav_date := now |}
    ∧ favorites s' `suffix_of` (favorites s ++ [{| fav_text := answer; fav_date := now |}])
    ∧ length (favorites s') ≤ 20
    ∧ history s' = history s ∧ last_answer s' = Some answer.
Proof.
  intros Ha Hs Hl Hne. unfold feedback_callback. rewrite Ha.
  unfold bind, lift, user_state_of, send, on_users. cbn.
  rewrite get_user_state_value, Hs. cbn. rewrite Hl.
  apply String.eqb_neq in Hne. rewrite Hne.
  assert ((get_user_state (callback_from_user cb) (user_state w)).1 = user_state w) as ->.
  { unfold get_user_state. by rewrite Hs. }
  eexists _, _. split; [reflexivity|]. cbn. rewrite add_to_favorites_lookup, Hs. cbn.
  split; [reflexivity|]. cbn.
  destruct (trimmed 20 (favorites s) {| fav_text := answer; fav_date := now |})
    as (H1 & H2 & H3); [lia|].
  split_and!; try done.
  pose proof (Nat.le_min_r (length (favorites s) + 1) 20) as Hm.
  rewrite <- H1 in Hm. exact Hm.
Qed.

End others.

(** *** The export *)

Lemma join_app sep (l1 l2 : list string) :
  l1 ≠ [] → l2 ≠ [] → join sep (l1 ++ l2) = join sep l1 +:+ sep +:+ join sep l2.
Proof.
  intros H1 H2. induction l1 as [|x l1 IH]; [done|].
  destruct l1 as [|y l1].
  - destruct l2; [done|]. reflexivity.
  - cbn [app] in *. rewrite !join_cons2, IH by done. by rewrite !append_assoc.
Qed.

(** X29. The export holds every exchange of the history: the exchange
    at place [i] (from 0) appears as the block numbered [i + 1], with
    its question after "Вопрос: " and its answer on the lines after
    "Ответ:". *)
Theorem export_holds_every_exchange s i q a :
  history s !! i = Some (q, a) →
  ∃ before after,
    export_history_txt s
    = before +:+ nl +:+ "--- Запрос " +:+ pretty (S i) +:+ " ---" +:+ nl +:+
      "Вопрос: " +:+ q +:+ nl +:+ "Ответ:" +:+ nl +:+ a +:+ nl +:+ after.
Proof.
  intros Hi. unfold export_history_txt.
  rewrite <- (take_drop_middle _ _ _ Hi), imap_app, imap_cons, concat_app.
  assert (length (take i (history s)) = i) as ->.
  { rewrite length_take. apply lookup_lt_Some in Hi. lia. }
  rewrite Nat.add_0_r. cbn [concat]. unfold exchange_lines at 2. cbn [fst snd app].
  set (l0 := concat (imap _ (take i (history s)))).
  set (l2 := concat (imap _ (drop (S i) (history s)))).
  set (x1 := "--- Запрос " +:+ pretty (S i) +:+ " ---").
  set (x2 := "Вопрос: " +:+ q). set (x3 := "Ответ:" +:+ nl +:+ a +:+ nl).
  change (history_header :: l0 ++ x1 :: x2 :: x3 :: l2)
    with ((history_header :: l0) ++ x1 :: x2 :: x3 :: l2).
  rewrite join_app by done.
  exists (join nl (history_header :: l0)). unfold x1, x2, x3. destruct l2 as [|x l2].
  - exists "". cbn [join]. by rewrite !append_assoc, append_nil_r.
  - exists (nl +:+ join nl (x :: l2)). rewrite !join_cons2. by rewrite !append_assoc.
Qed.

(** *** On concrete inputs *)

Lemma in_order_set l : NoDup (in_order l) ∧ ∀ x, x ∈ in_order l ↔ x ∈ l.
Proof.
  unfold in_order. split; [apply NoDup_remove_dups|]. intros x. apply elem_of_remove_dups.
Qed.

Lemma two_passages_sources (d : string * gmap string pyval * Z) n :
  d ∈ two_passages → d.1.2 !! "source" ≠ Some (PInt n).
Proof.
  intros Hd. unfold two_passages in Hd.
  repeat (apply elem_of_cons in Hd as [->|Hd]; [vm_compute; discriminate|]).
  by apply elem_of_nil in Hd.
Qed.

Lemma only_the_first_send_can_fail_witness :
  let w := fresh_bot 0 in
  let w' := (handle_question telegram_down answers in_order hello None None w).1 in
  rag w' = rag w ∧ logged w' = logged w
  ∧ (∀ uid s, user_state w !! uid = Some s → user_state w' !! uid = Some s)
  ∧ (from_user hello = None ∧ sent w' = sent w
     ∨ ∃ o, o ∈ [Reply "Пришлите текстовый вопрос."; thinking]
            ∧ sent w' = sent w ++ [o]
            ∧ telegram_down (length (sent w)) o
              = Raise (OtherError "TelegramNetworkError" "Request timeout error")).
Proof.
  apply (only_the_first_send_can_fail telegram_down answers in_order hello None None
           (fresh_bot 0) _ (OtherError "TelegramNetworkError" "Request timeout error")).
  vm_compute. reflexivity.
Defined.

Lemma failed_answer_is_reported_witness :
  ∃ w', handle_question telegram_ok refuses in_order hello None None (fresh_bot 0) = (w', Ok tt)
    ∧ sent w' = sent (fresh_bot 0) ++
                [thinking;
                 Answer ("Ошибка: " +:+ str_exn (RuntimeError RagService.overloaded_message))
                   NoParseMode NoKeyboard]
    ∧ logged w' = logged (fresh_bot 0) ++ ["Failed to answer question"]
    ∧ user_state w' !! 42%Z = Some (default new_state (user_state (fresh_bot 0) !! 42%Z))
    ∧ ∀ uid', uid' ≠ 42%Z → user_state w' !! uid' = user_state (fresh_bot 0) !! uid'.
Proof.
  apply (failed_answer_is_reported telegram_ok refuses in_order hello None None
           (fresh_bot 0) 42%Z 1).
  - vm_compute. discriminate.
  - reflexivity.
  - reflexivity.
  - reflexivity.
Defined.

Lemma answer_is_recorded_witness :
  let before := default new_state (user_state after_one_exchange !! 42%Z) in
  ∃ w' s, handle_question only_first_delivered answers in_order hello (Some "And then?")
            (Some 42%Z) after_one_exchange = (w', Ok tt)
    ∧ rag w' = 2
    ∧ user_state w' !! 42%Z = Some s
    ∧ last_answer s = Some "Retrieval first, then generation."
    ∧ last_sources s = source_of <$> two_passages
    ∧ last (history s)
      = Some (asked hello (Some "And then?"), "Retrieval first, then generation.")
    ∧ history s `suffix_of`
        (history before
         ++ [(asked hello (Some "And then?"), "Retrieval first, then generation.")])
    ∧ favorites s = favorites before
    ∧ ∀ uid', uid' ≠ 42%Z → user_state w' !! uid' = user_state after_one_exchange !! uid'.
Proof.
  apply (answer_is_recorded_whatever_telegram_does only_first_delivered answers in_order
           hello (Some "And then?") (Some 42%Z) after_one_exchange 42%Z 2
           "Retrieval first, then generation." two_passages).
  - vm_compute. discriminate.
  - reflexivity.
  - reflexivity.
  - reflexivity.
Defined.

Lemma formatting_failure_witness :
  let footer := nl +:+ nl +:+ "📚 Источники: data/raw/notes.txt, data/raw/intro.md" in
  let formatted :=
    Answer ("Retrieval first, then generation." +:+ footer) MarkdownMode FeedbackKeyboard in
  let plain :=
    Answer ("Retrieval first, then generation." +:+ footer) NoParseMode FeedbackKeyboard in
  ∃ w' rest, handle_question markdown_rejected answers in_order hello None None (fresh_bot 0)
             = (w', Ok tt)
    ∧ sent w' = sent (fresh_bot 0) ++ [thinking; formatted; plain] ++ rest
    ∧ (markdown_rejected (length (sent (fresh_bot 0)) + 2) plain = Ok tt →
         rest = [] ∧ logged w' = logged (fresh_bot 0))
    ∧ (∀ e2, markdown_rejected (length (sent (fresh_bot 0)) + 2) plain = Raise e2 →
         rest = [Answer ("Ошибка: " +:+ str_exn e2) NoParseMode NoKeyboard]
         ∧ logged w' = logged (fresh_bot 0) ++ ["Failed to answer question"]).
Proof.
  apply (formatting_failure_falls_back_to_plain_text markdown_rejected answers in_order
           hello None None (fresh_bot 0) 42%Z 1 "Retrieval first, then generation."
           two_passages
           (nl +:+ nl +:+ "📚 Источники: data/raw/notes.txt, data/raw/intro.md")
           (OtherError "TelegramBadRequest" "can't parse entities")).
  - vm_compute. discriminate.
  - reflexivity.
  - reflexivity.
  - reflexivity.
  - vm_compute. reflexivity.
  - reflexivity.
Defined.

Lemma answer_names_sources_witness :
  ∃ shown rest,
    sent (handle_question telegram_ok answers in_order hello None None (fresh_bot 0)).1
    = sent (fresh_bot 0) ++
      thinking ::
      Answer ("Retrieval first, then generation." +:+
              match shown with
              | [] => ""
              | _ :: _ => nl +:+ nl +:+ "📚 Источники: " +:+ join ", " shown
              end) MarkdownMode FeedbackKeyboard :: rest
    ∧ length shown ≤ 3 ∧ NoDup shown
    ∧ (∀ s, s ∈ shown →
         s ≠ "" ∧ ∃ d, d ∈ two_passages ∧ d.1.2 !! "source" = Some (PStr s))
    ∧ (length shown < 3 →
       ∀ d s, d ∈ two_passages → d.1.2 !! "source" = Some (PStr s) → s ≠ "" → s ∈ shown).
Proof.
  apply (answer_names_at_most_three_sources telegram_ok answers in_order hello None None
           (fresh_bot 0) 42%Z 1 "Retrieval first, then generation." two_passages).
  - vm_compute. discriminate.
  - reflexivity.
  - reflexivity.
  - reflexivity.
  - apply in_order_set.
  - intros d n. apply two_passages_sources.
Defined.

Lemma overload_reaches_the_user_witness :
  ∃ w', handle_question telegram_ok
          (RagService.generate_answer RagService.rag_service_globals embed1 index_ok
             always_503 4)
          in_order hello None None (fresh_bot RagService.world0) = (w', Ok tt)
    ∧ sent w' = sent (fresh_bot RagService.world0) ++
                [thinking;
                 Answer "Ошибка: name 'time' is not defined" NoParseMode NoKeyboard]
    ∧ RagService.chat_calls (rag w')
      = S (RagService.chat_calls (RagService.count_query RagService.world0))
    ∧ RagService.sleeps (rag w') = RagService.sleeps (rag (fresh_bot RagService.world0))
    ∧ history <$> user_state w' !! 42%Z
      = Some (history (default new_state
                         (user_state (fresh_bot RagService.world0) !! 42%Z))).
Proof.
  apply (overload_reaches_the_user_as_a_NameError telegram_ok in_order embed1 index_ok
           always_503 4 hello None None (fresh_bot RagService.world0) 42%Z
           (RagService.count_query RagService.world0)
           [("D", {["source" := PStr "S"]}, 0%Z)] "server busy, please try again").
  - vm_compute. discriminate.
  - reflexivity.
  - reflexivity.
  - vm_compute. reflexivity.
  - reflexivity.
Defined.

Lemma reset_clears_nothing_witness :
  let before := default new_state (user_state after_one_exchange !! 42%Z) in
  ∃ w' s, reset_handler telegram_ok hello after_one_exchange
          = (w', telegram_ok (length (sent after_one_exchange))
                   (Answer "🔄 Параметры сброшены." Unset MainKeyboard))
    ∧ user_state w' !! 42%Z = Some s
    ∧ history s = history before ∧ favorites s = favorites before
    ∧ last_answer s = last_answer before ∧ last_sources s = last_sources before
    ∧ awaiting s = None
    ∧ ∀ uid', uid' ≠ 42%Z → user_state w' !! uid' = user_state after_one_exchange !! uid'.
Proof.
  apply (reset_clears_nothing_but_awaiting telegram_ok hello 42%Z after_one_exchange).
  reflexivity.
Defined.

Lemma feedback_is_not_stored_witness :
  let w' := (feedback_callback telegram_ok half_past_nine like_pressed after_one_exchange).1 in
  user_state w'
  = (get_user_state (callback_from_user like_pressed) (user_state after_one_exchange)).1
  ∧ logged w' = logged after_one_exchange ∧ rag w' = rag after_one_exchange
  ∧ ("good" ≠ "good" → "good" ≠ "bad" → sent w' = sent after_one_exchange).
Proof.
  apply (feedback_other_than_save_is_not_stored telegram_ok half_past_nine like_pressed
           "good" after_one_exchange).
  - reflexivity.
  - discriminate.
Defined.

Lemma save_stores_the_last_answer_witness :
  let answer := "Retrieval first, then generation." in
  ∃ w' s', feedback_callback telegram_ok half_past_nine save_pressed after_one_exchange
           = (w', telegram_ok (length (sent after_one_exchange))
                    (CallbackAnswer "💾 Сохранено в избранное!"))
    ∧ user_state w' !! callback_from_user save_pressed = Some s'
    ∧ last (favorites s') = Some {| fav_text := answer; fav_date := half_past_nine |}
    ∧ favorites s' `suffix_of`
        (favorites one_exchange ++ [{| fav_text := answer; fav_date := half_past_nine |}])
    ∧ length (favorites s') ≤ 20
    ∧ history s' = history one_exchange ∧ last_answer s' = Some answer.
Proof.
  apply (save_stores_the_last_answer telegram_ok half_past_nine save_pressed
           after_one_exchange one_exchange "Retrieval first, then generation.").
  - reflexivity.
  - reflexivity.
  - reflexivity.
  - discriminate.
Defined.

Lemma export_holds_every_exchange_witness :
  ∃ before after,
    export_history_txt one_exchange
    = before +:+ nl +:+ "--- Запрос " +:+ pretty 1 +:+ " ---" +:+ nl +:+
      "Вопрос: " +:+ "What is RAG?" +:+ nl +:+ "Ответ:" +:+ nl +:+
      "Retrieval first, then generation." +:+ nl +:+ after.
Proof.
  apply (export_holds_every_exchange one_exchange 0 "What is RAG?"
           "Retrieval first, then generation.").
  reflexivity.
Defined.

End BotFacts.
